(** * etl.py: missing-data detection and imputation

    A shallow embedding of [src/etl.py] and the properties of its three
    functions ([find_columns_with_missing_data], [read_config],
    [input_missing_data]) and of the script body.

    Conventions of the embedding.
    - A pandas cell is a [value]: the null marker ([NA], pandas' NaN/None),
      a finite number, an infinity or a text.  Finite numbers are rationals;
      the arithmetic of [mean], [median] and the interpolation is that of
      64-bit floats: every operation is rounded to the nearest float, ties
      to even, a result beyond the largest float is an infinity, and
      opposite infinities add up to NaN, the null marker.  The two zeros
      are not told apart, and a sum runs over the cells in row order
      (numpy adds long arrays block-wise).  Temporal cells are not modelled.
    - A [Series] is the list of its cells in row order; a [DataFrame] is its
      row labels together with its named columns, in column order.  With a
      column name that occurs twice pandas hands out a frame for
      [df[column]], not a series; this is not modelled, and [well_formed]
      frames, whose column names are distinct, are those on which the
      embedding follows pandas.
    - Python strings are modelled as ASCII strings; [strip] and [lower] are
      the ASCII versions of [str.strip] and [str.lower].
    - The frame handed to [input_missing_data] is a Python object shared
      with the caller: [df.loc[:, column] = ...] updates it in place, while
      [df = df.dropna(...)] makes the local name [df] point to a new
      object.  The [store] keeps both.
    - pandas and configparser are libraries: their operations are written
      out here as their documentation describes them ([fillna], [ffill],
      [bfill], [dropna], [mean], [median], [mode], [ConfigParser.read] and
      [ConfigParser.get]); the numeric interpolation is left abstract.  The
      text of the exceptions raised inside the libraries is indicative. *)

From Stdlib Require Import QArith Ascii String.
From stdpp Require Import base list strings.


(** ** Python string helpers *)

Module Py.

(** [str.isspace] on one ASCII character: TAB, LF, VT, FF, CR, the four
    separators FS, GS, RS, US and the blank. *)
Definition isspace (c : ascii) : bool :=
  let n := nat_of_ascii c in
  ((9 <=? n) && (n <=? 13)) || ((28 <=? n) && (n <=? 32)).

Fixpoint lstrip_chars (l : list ascii) : list ascii :=
  match l with
  | c :: l' => if isspace c then lstrip_chars l' else l
  | [] => []
  end.

Definition strip_chars (l : list ascii) : list ascii :=
  reverse (lstrip_chars (reverse (lstrip_chars l))).

(** [s.strip()] *)
Definition strip (s : string) : string :=
  string_of_list_ascii (strip_chars (list_ascii_of_string s)).

Definition lower_char (c : ascii) : ascii :=
  let n := nat_of_ascii c in
  if (65 <=? n) && (n <=? 90) then ascii_of_nat (n + 32) else c.

(** [s.lower()] *)
Definition lower (s : string) : string :=
  string_of_list_ascii (lower_char <$> list_ascii_of_string s).

(** [needle in haystack] on strings. *)
Fixpoint contains (haystack needle : string) : bool :=
  String.prefix needle haystack ||
  match haystack with
  | EmptyString => false
  | String _ rest => contains rest needle
  end.

End Py.

(** ** Exceptions and fallible results *)

Inductive exn : Type :=
| AttributeError (msg : string)
| KeyError (key : string)
| TypeError (msg : string)
| NoOptionError (option section : string)
| NoSectionError (section : string)
| ParsingError (source : string)
| OSError (msg : string).

(** [str(e)], as the f-strings of the log messages format an exception. *)
Definition exn_str (e : exn) : string :=
  match e with
  | AttributeError msg => msg
  | KeyError key => key
  | TypeError msg => msg
  | NoOptionError option section =>
      "No option '" +:+ option +:+ "' in section: '" +:+ section +:+ "'"
  | NoSectionError section => "No section: '" +:+ section +:+ "'"
  | ParsingError source => "Source contains parsing errors: '" +:+ source +:+ "'"
  | OSError msg => msg
  end.

Inductive result (A : Type) : Type :=
| Ok (a : A)
| Raise (e : exn).

Arguments Ok {A} a.
Arguments Raise {A} e.

#[global] Instance result_ret : MRet result := λ A a, Ok a.

#[global] Instance result_bind : MBind result := λ A B k r,
  match r with
  | Ok a => k a
  | Raise e => Raise e
  end.

(** ** Association lists, first match *)

Fixpoint assoc {A} (key : string) (l : list (string * A)) : option A :=
  match l with
  | [] => None
  | (k, a) :: l' => if String.eqb k key then Some a else assoc key l'
  end.

(** ** Sorting, as the numeric reductions need it *)

Fixpoint insert_by {A} (leb : A → A → bool) (x : A) (l : list A) : list A :=
  match l with
  | [] => [x]
  | y :: l' => if leb x y then x :: l else y :: insert_by leb x l'
  end.

Definition sort_by {A} (leb : A → A → bool) (l : list A) : list A :=
  foldr (insert_by leb) [] l.

(** ** Cells and series *)

Inductive value : Type :=
| NA
| Num (q : Q)
| Inf (positive : bool)
| Str (s : string).

Abbreviation Series := (list value).

Definition isnull (v : value) : bool :=
  match v with NA => true | _ => false end.

Definition notnull (v : value) : bool := negb (isnull v).

(** The cell-wise test [cell == ''] of [df[column] == '']. *)
Definition is_empty_text (v : value) : bool :=
  match v with Str EmptyString => true | _ => false end.

(** The spec's notion of a missing value: the null marker or the empty
    text. *)
Definition missing (v : value) : bool := isnull v || is_empty_text v.

(** Equality of cells as pandas counts them for [mode]. *)
Definition value_eqb (a b : value) : bool :=
  match a, b with
  | NA, NA => true
  | Num p, Num q => Qeq_bool p q
  | Inf a, Inf b => Bool.eqb a b
  | Str s, Str t => String.eqb s t
  | _, _ => false
  end.

(** Order used to sort the modes; only meaningful between two numbers or two
    texts. *)
Definition value_leb (a b : value) : bool :=
  match a, b with
  | Num p, Num q => Qle_bool p q
  | Inf a, Num _ => negb a
  | Num _, Inf b => b
  | Inf a, Inf b => implb a b
  | Str s, Str t => String.leb s t
  | _, _ => true
  end.

(** ** Numbers as the reductions see them *)

(** A float that is not NaN: finite, or one of the two infinities. *)
Inductive number : Type :=
| Finite (q : Q)
| Infinite (positive : bool).

(** The integer nearest to [n / d], ties to even, for [0 <= n], [0 < d]. *)
Definition nearest_even (n d : Z) : Z :=
  let q := (n / d)%Z in
  match (2 * (n mod d) ?= d)%Z with
  | Lt => q
  | Gt => (q + 1)%Z
  | Eq => if Z.even q then q else (q + 1)%Z
  end.

(** The fraction [n / d] divided by [2 ^ e]. *)
Definition scaled (n d e : Z) : Z * Z :=
  if (0 <=? e)%Z then (n, d * 2 ^ e)%Z else ((n * 2 ^ (- e))%Z, d).

(** The exponent of the last of the 53 binary places of [n / d], which is
    no less than -1074, the exponent of the least positive float. *)
Definition last_place (n d : Z) : Z :=
  let k := (Z.log2 n - Z.log2 d)%Z in
  let (n', d') := scaled n d k in
  Z.max ((if (n' <? d')%Z then k - 1 else k) - 52) (-1074).

Definition round_pos (n d : Z) : number :=
  let e := last_place n d in
  let (n', d') := scaled n d e in
  let m := nearest_even n' d' in
  if (0 <=? e)%Z then
    if (2 ^ 1024 <=? m * 2 ^ e)%Z then Infinite true
    else Finite (inject_Z (m * 2 ^ e))
  else Finite (Qred (Qmake m (Z.to_pos (2 ^ (- e))))).

Definition negate (x : number) : number :=
  match x with
  | Finite q => Finite (- q)
  | Infinite b => Infinite (negb b)
  end.

(** The 64-bit float nearest to [q], an infinity beyond the largest one. *)
Definition round (q : Q) : number :=
  match Qnum q with
  | Z0 => Finite 0
  | Zpos n => round_pos (Zpos n) (Zpos (Qden q))
  | Zneg n => negate (round_pos (Zpos n) (Zpos (Qden q)))
  end.

(** Float addition, [None] standing for NaN: opposite infinities add up to
    NaN, and NaN absorbs. *)
Definition fadd (x y : option number) : option number :=
  match x, y with
  | Some (Finite p), Some (Finite q) => Some (round (p + q))
  | Some (Finite _), Some (Infinite b) => Some (Infinite b)
  | Some (Infinite a), Some (Finite _) => Some (Infinite a)
  | Some (Infinite a), Some (Infinite b) =>
      if Bool.eqb a b then Some (Infinite a) else None
  | _, _ => None
  end.

(** Float multiplication by an integer: an infinity times zero is NaN. *)
Definition fmul (x : option number) (z : Z) : option number :=
  match x with
  | Some (Finite q) => Some (round (q * inject_Z z))
  | Some (Infinite b) =>
      if (z =? 0)%Z then None
      else Some (Infinite (if (z <? 0)%Z then negb b else b))
  | None => None
  end.

(** Float division by a positive count. *)
Definition fdiv (x : option number) (n : nat) : option number :=
  match x with
  | Some (Finite q) => Some (round (q / inject_Z (Z.of_nat n)))
  | other => other
  end.

Definition number_eqb (x y : number) : bool :=
  match x, y with
  | Finite p, Finite q => Qeq_bool p q
  | Infinite a, Infinite b => Bool.eqb a b
  | _, _ => false
  end.

Definition number_leb (x y : number) : bool :=
  match x, y with
  | Finite p, Finite q => Qle_bool p q
  | Infinite a, Finite _ => negb a
  | Finite _, Infinite b => b
  | Infinite a, Infinite b => implb a b
  end.

(** The cell that holds the result of a reduction. *)
Definition number_value (x : option number) : value :=
  match x with
  | None => NA
  | Some (Finite q) => Num (Qred q)
  | Some (Infinite b) => Inf b
  end.

Module Series.

(** [s.isnull().any()] and [(s == '').any()] *)
Definition any (p : value → bool) (s : Series) : bool := existsb p s.

(** [s.fillna(v)]: null cells take [v], the others stay. *)
Definition fillna (v : value) (s : Series) : Series :=
  (λ x, if isnull x then v else x) <$> s.

(** [s.ffill()]: walk down the rows carrying the last valid cell. *)
Fixpoint ffill_from (last : value) (s : Series) : Series :=
  match s with
  | [] => []
  | x :: s' =>
      if isnull x then last :: ffill_from last s'
      else x :: ffill_from x s'
  end.

Definition ffill (s : Series) : Series := ffill_from NA s.

(** [s.bfill()]: a null cell takes the filled value of the row below. *)
Fixpoint bfill (s : Series) : Series :=
  match s with
  | [] => []
  | x :: s' =>
      let r := bfill s' in
      (if isnull x then default NA (head r) else x) :: r
  end.

(** The cells that [mean], [median] and [mode] look at ([skipna],
    [dropna]). *)
Definition valid (s : Series) : Series := filter (λ x, notnull x = true) s.

(** The valid cells as numbers; a text among them makes the numeric
    reductions raise. *)
Fixpoint numbers (s : Series) : result (list number) :=
  match s with
  | [] => Ok []
  | NA :: s' => numbers s'
  | Num q :: s' => xs ← numbers s'; Ok (Finite q :: xs)
  | Inf b :: s' => xs ← numbers s'; Ok (Infinite b :: xs)
  | Str _ :: _ => Raise (TypeError "Could not convert string to numeric")
  end.

(** The sum of the numbers in row order, [None] when it is NaN. *)
Definition fsum (xs : list number) : option number :=
  foldl (λ acc x, fadd acc (Some x)) (Some (Finite 0)) xs.

(** [s.mean()]: the null marker when no cell is valid, and when the sum is
    NaN. *)
Definition mean (s : Series) : result value :=
  xs ← numbers s;
  Ok (match xs with
      | [] => NA
      | _ => number_value (fdiv (fsum xs) (length xs))
      end).

(** [s.median()]: the middle of the sorted valid cells, the average of the
    two middle ones when their number is even. *)
Definition median (s : Series) : result value :=
  xs ← numbers s;
  let sorted := sort_by number_leb xs in
  let n := length sorted in
  Ok (match sorted !! (n / 2) with
      | None => NA
      | Some hi =>
          if Nat.even n then
            match sorted !! (n / 2 - 1) with
            | Some lo => number_value (fdiv (fadd (Some lo) (Some hi)) 2)
            | None => NA
            end
          else number_value (Some hi)
      end).

Definition count (v : value) (s : Series) : nat :=
  length (filter (λ x, value_eqb v x = true) s).

(** The cells of [s] without repetition, at their first occurrence. *)
Fixpoint distinct (s : Series) : Series :=
  match s with
  | [] => []
  | x :: s' => x :: filter (λ y, value_eqb x y = false) (distinct s')
  end.

Definition is_num (v : value) : bool :=
  match v with Num _ | Inf _ => true | _ => false end.

Definition is_str (v : value) : bool :=
  match v with Str _ => true | _ => false end.

(** [s.mode()]: the most frequent valid cells.  pandas sorts them; when
    they mix numbers and texts the sort fails and they are kept in order
    of first occurrence. *)
Definition mode (s : Series) : Series :=
  let vs := valid s in
  let ds := distinct vs in
  let best := max_list ((λ v, count v vs) <$> ds) in
  let ms := filter (λ v, count v vs = best) ds in
  if forallb is_num ms || forallb is_str ms then sort_by value_leb ms
  else ms.

(** [s[0]] on the result of [mode], whose labels are [0, 1, ...]. *)
Definition getitem0 (s : Series) : result value :=
  match s with
  | v :: _ => Ok v
  | [] => Raise (KeyError "0")
  end.

End Series.

(** ** Data frames *)

Record DataFrame : Type := {
  index : list nat;              (* the row labels, in row order *)
  cols : list (string * Series)  (* the named columns, in column order *)
}.

Module DataFrame.

(** [df.columns] *)
Definition columns (df : DataFrame) : list string := (cols df).*1.

(** [df[column]] *)
Definition getitem (df : DataFrame) (column : string) : result Series :=
  match assoc column (cols df) with
  | Some s => Ok s
  | None => Raise (KeyError ("'" +:+ column +:+ "'"))
  end.

(** [df.loc[:, column] = s]: the assigned series is aligned on the rows of
    the frame, which keeps its row labels. *)
Definition loc_setitem (column : string) (s : Series) (df : DataFrame)
  : DataFrame :=
  {| index := index df;
     cols := (λ nc : string * Series,
                if String.eqb nc.1 column
                then (nc.1, resize (length (index df)) NA s)
                else nc) <$> cols df |}.

(** The entries of [l] whose row is marked [true] in the mask. *)
Fixpoint keep {A} (mask : list bool) (l : list A) : list A :=
  match mask, l with
  | b :: mask', x :: l' => if b then x :: keep mask' l' else keep mask' l'
  | _, _ => []
  end.

(** [df.dropna(subset=[column])]: a new frame holding, for every column
    and for the row labels, the rows whose [column] cell is not null. *)
Definition dropna (column : string) (df : DataFrame) : result DataFrame :=
  s ← getitem df column;
  let mask := notnull <$> s in
  Ok {| index := keep mask (index df);
        cols := (λ nc : string * Series, (nc.1, keep mask nc.2)) <$> cols df |}.

(** [df.columns = df.columns.str.strip()] *)
Definition strip_columns (df : DataFrame) : DataFrame :=
  {| index := index df;
     cols := (λ nc : string * Series, (Py.strip nc.1, nc.2)) <$> cols df |}.

(** The cells of a column, for statements about a column that exists. *)
Definition cells (df : DataFrame) (column : string) : Series :=
  default [] (assoc column (cols df)).

(** The cells of a column next to the labels of their rows. *)
Definition labelled (df : DataFrame) (column : string) : list (nat * value) :=
  zip (index df) (cells df column).

(** The frame read row by row: each row is its label and its named cells. *)
Fixpoint rows_from (labels : list nat) (columns : list (string * Series))
  : list (nat * list (string * value)) :=
  match labels with
  | [] => []
  | l :: labels' =>
      (l, (λ nc : string * Series, (nc.1, default NA (head nc.2))) <$> columns)
      :: rows_from labels' ((λ nc : string * Series, (nc.1, tail nc.2)) <$> columns)
  end.

Definition rows (df : DataFrame) : list (nat * list (string * value)) :=
  rows_from (index df) (cols df).

Definition row_cell (column : string) (row : nat * list (string * value))
  : value :=
  default NA (assoc column row.2).

(** Column names are distinct and every column has one cell per row. *)
Definition well_formed (df : DataFrame) : Prop :=
  NoDup (columns df) ∧
  Forall (λ nc : string * Series, length nc.2 = length (index df)) (cols df).

End DataFrame.

(** ** The parsed configuration *)

Record ConfigParser : Type := {
  defaults : list (string * string);            (* the DEFAULT section *)
  sects : list (string * list (string * string))
    (* the other sections, each with its options; option names are stored
       lower-case, values as [get] hands them out *)
}.

Module ConfigParser.

Definition empty : ConfigParser := {| defaults := []; sects := [] |}.

(** [config.sections()] *)
Definition sections (config : ConfigParser) : list string :=
  (sects config).*1.

(** [config.get(section, option)]: the option of the section, else the one
    of DEFAULT. *)
Definition get (config : ConfigParser) (section option : string)
  : result string :=
  match assoc section (sects config) with
  | None => Raise (NoSectionError section)
  | Some options =>
      match assoc (Py.lower option) options with
      | Some v => Ok v
      | None =>
          match assoc (Py.lower option) (defaults config) with
          | Some v => Ok v
          | None => Raise (NoOptionError option section)
          end
      end
  end.

(** What [ConfigParser.read] finds at a path. *)
Inductive file : Type :=
| Unopenable                     (* [open] raises [OSError] *)
| Malformed                      (* the parser raises *)
| Parsed (config : ConfigParser).

(** [config = ConfigParser(); config.read(filename)]: a file that cannot
    be opened is skipped and the parser stays empty. *)
Definition read (fs : string → file) (filename : string)
  : result ConfigParser :=
  match fs filename with
  | Unopenable => Ok empty
  | Malformed => Raise (ParsingError filename)
  | Parsed config => Ok config
  end.

End ConfigParser.

(** ** The log and the store *)

Inductive level : Type := INFO | ERROR.

Definition log_record : Type := level * string.

Record store : Type := {
  passed : DataFrame;           (* the object the caller handed over *)
  rebound : option DataFrame;   (* the object [df] names after a rebinding *)
  log : list log_record
}.

(** A computation over the store that may raise; what it did to the store
    before raising stays done. *)
Definition M (A : Type) : Type := store → result A * store.

#[global] Instance M_ret : MRet M := λ A a st, (Ok a, st).

#[global] Instance M_bind : MBind M := λ A B k m st,
  match m st with
  | (Ok a, st') => k a st'
  | (Raise e, st') => (Raise e, st')
  end.

Module Store.

(** The frame the local name [df] stands for. *)
Definition df (st : store) : DataFrame := default (passed st) (rebound st).

Definition current : M DataFrame := λ st, (Ok (df st), st).

Definition lift {A} (r : result A) : M A := λ st, (r, st).

(** An update in place of the object [df] names. *)
Definition update (f : DataFrame → DataFrame) : M unit := λ st,
  (Ok (),
   match rebound st with
   | Some d => {| passed := passed st; rebound := Some (f d); log := log st |}
   | None => {| passed := f (passed st); rebound := None; log := log st |}
   end).

(** [df = d]: the name now points to a new object. *)
Definition rebind (d : DataFrame) : M unit := λ st,
  (Ok (), {| passed := passed st; rebound := Some d; log := log st |}).

Definition logging (lv : level) (msg : string) : M unit := λ st,
  (Ok (), {| passed := passed st; rebound := rebound st;
             log := log st ++ [(lv, msg)] |}).

(** The store on entry of a function called with the frame [d]. *)
Definition enter (d : DataFrame) (records : list log_record) : store :=
  {| passed := d; rebound := None; log := records |}.

End Store.

(** ** The program *)

Section Etl.

(** [Series.interpolate(method=...)], which pandas and scipy compute
    numerically from the row labels and the cells; it may raise. *)
Variable interpolate : string → list nat → Series → result Series.

(** *** [find_columns_with_missing_data] *)

Fixpoint find_columns_loop (columns : list string)
  (missing_data_columns : list string) : M (list string) :=
  match columns with
  | [] => mret missing_data_columns
  | column :: columns' =>
      df ← Store.current;
      s ← Store.lift (DataFrame.getitem df column);
      if Series.any isnull s || Series.any is_empty_text s
      then find_columns_loop columns' (missing_data_columns ++ [column])
      else find_columns_loop columns' missing_data_columns
  end.

Definition find_columns_with_missing_data : M (list string) :=
  df ← Store.current;
  find_columns_loop (DataFrame.columns df) [].

(** *** [read_config] *)

Definition read_config (fs : string → ConfigParser.file) (config_file : string)
  (records : list log_record) : result ConfigParser * list log_record :=
  match ConfigParser.read fs config_file with
  | Ok config =>
      (Ok config,
       records ++ [(INFO, "Read config file " +:+ config_file +:+ " successfully.")])
  | Raise e =>
      (Raise e,
       records ++ [(ERROR, "Error reading config file " +:+ config_file +:+ ": "
                           +:+ exn_str e)])
  end.

(** *** [input_missing_data] *)

(** The strategy identifiers the dispatch knows. *)
Definition strategies : list string :=
  ["mean"; "median"; "mode"; "zero"; "remove"; "ffill"; "bfill";
   "nearest"; "linear"; "slinear"; "quadratic"; "cubic"].

(** [df.loc[:, column] = f(df[column])] for a fallible [f]. *)
Definition transform_column (column : string) (f : Series → result Series)
  : M unit :=
  df ← Store.current;
  s ← Store.lift (DataFrame.getitem df column);
  s' ← Store.lift (f s);
  Store.update (DataFrame.loc_setitem column s').

(** The [if]/[elif] chain on the strategy. *)
Definition apply_strategy (column strategy : string) : M unit :=
  if String.eqb strategy "mean" then
    transform_column column (λ s, m ← Series.mean s; Ok (Series.fillna m s))
  else if String.eqb strategy "median" then
    transform_column column (λ s, m ← Series.median s; Ok (Series.fillna m s))
  else if String.eqb strategy "mode" then
    transform_column column
      (λ s, mode_value ← Series.getitem0 (Series.mode s);
            Ok (Series.fillna mode_value s))
  else if String.eqb strategy "zero" then
    transform_column column (λ s, Ok (Series.fillna (Num 0) s))
  else if String.eqb strategy "remove" then
    df ← Store.current;
    d ← Store.lift (DataFrame.dropna column df);
    Store.rebind d
  else if String.eqb strategy "ffill" then
    transform_column column (λ s, Ok (Series.ffill s))
  else if String.eqb strategy "bfill" then
    transform_column column (λ s, Ok (Series.bfill s))
  else if existsb (String.eqb strategy)
            ["nearest"; "linear"; "slinear"; "quadratic"; "cubic"] then
    df ← Store.current;
    transform_column column (interpolate strategy (index df))
  else
    Store.lift (Raise (AttributeError ("invalid strategy (" +:+ strategy +:+ ")"))).

(** The body of the loop over [df.columns]. *)
Definition process_column (config : ConfigParser) (column : string) : M unit :=
  if existsb (String.eqb (Py.strip column)) (ConfigParser.sections config) then
    s ← Store.lift (ConfigParser.get config (Py.strip column) "strategy");
    let strategy := Py.lower s in
    _ ← apply_strategy column strategy;
    Store.logging INFO (column +:+ ": cleaned using strategy " +:+ strategy)
  else mret ().

(** How the loop ends: after the last column, or at the column whose body
    raised, which is the value the name [column] has in the handler. *)
Inductive loop_exit : Type :=
| Completed
| Raised (column : string) (e : exn).

Fixpoint for_columns (body : string → M unit) (columns : list string)
  (st : store) : loop_exit * store :=
  match columns with
  | [] => (Completed, st)
  | column :: columns' =>
      match body column st with
      | (Ok _, st') => for_columns body columns' st'
      | (Raise e, st') => (Raised column e, st')
      end
  end.

(** The call [input_missing_data(df, config)]: what it returns ([None] when
    the handler ran) and the store it leaves, whose [passed] is the caller's
    frame after the call. *)
Definition input_missing_data (df : DataFrame) (config : ConfigParser)
  (records : list log_record) : option DataFrame * store :=
  match for_columns (process_column config) (DataFrame.columns df)
          (Store.enter df records) with
  | (Completed, st) => (Some (Store.df st), st)
  | (Raised column e, st) =>
      (None,
       (Store.logging ERROR
          ("inputting missing data for " +:+ column +:+ ": " +:+ exn_str e) st).2)
  end.

(** *** The script *)

Record run : Type := {
  cleaned_csv : option (list (string * Series)); (* data/cleaned_data.csv *)
  printed : list string;
  logged : list log_record;
  uncaught : option exn
}.

(** The script body, from the parsed [data/data.csv] on; [writable] tells
    whether [to_csv] can write its file. *)
Definition main (csv : DataFrame) (fs : string → ConfigParser.file)
  (writable : bool) : run :=
  let data := DataFrame.strip_columns csv in
  let config_file := "parameter_config.ini" in
  match read_config fs config_file [] with
  | (Raise e, records) =>
      {| cleaned_csv := None; printed := []; logged := records;
         uncaught := Some e |}
  | (Ok config, records) =>
      let (df_cleaned, st) := input_missing_data data config records in
      match df_cleaned with
      | Some d =>
          if writable then
            {| cleaned_csv := Some (cols d);
               printed := ["Data cleaning process completed successfully!"];
               logged := log st ++
                 [(INFO, "Data cleaning process completed successfully and output saved as cleaned_data.csv")];
               uncaught := None |}
          else
            {| cleaned_csv := None; printed := ["etl task failed!!!"];
               logged := log st ++ [(ERROR, "Data Cleaning process failed")];
               uncaught := None |}
      | None =>
          {| cleaned_csv := None; printed := ["etl task failed!!!"];
             logged := log st ++ [(ERROR, "Data Cleaning process failed")];
             uncaught := None |}
      end
  end.

(** The whole script.  It starts with [pd.read_csv], which is inside no
    [try]: when it raises (no file at [data/data.csv], no [Date] column in
    it) the exception leaves the script at once.  [data_file] is what
    [read_csv] gives. *)
Definition script (data_file : result DataFrame)
  (fs : string → ConfigParser.file) (writable : bool) : run :=
  match data_file with
  | Raise e =>
      {| cleaned_csv := None; printed := []; logged := []; uncaught := Some e |}
  | Ok csv => main csv fs writable
  end.

End Etl.

(** ** A concrete interpolation: pandas without scipy

    [linear] is pandas' own method: valid cells are joined by straight lines
    over the row positions, nulls after the last valid cell repeat it and
    nulls before the first valid cell stay.  The other methods need scipy
    and raise when it is not installed. *)

(** The cells that the straight line from the valid cell [y0] to the valid
    cell [y1] gives to the [gap] null rows between them, as [numpy.interp]
    computes them: [slope * (x - x0) + y0]; when that is NaN the same from
    the other end, [slope * (x - x1) + y1]; when that is NaN too, the
    common value of the two ends if they are equal. *)
Definition between (y0 y1 : number) (gap : nat) : Series :=
  let slope := fdiv (fadd (Some y1) (Some (negate y0))) (S gap) in
  (λ k : nat,
     match fadd (fmul slope (Z.of_nat (S k))) (Some y0) with
     | Some y => number_value (Some y)
     | None =>
         match fadd (fmul slope (Z.of_nat (S k) - Z.of_nat (S gap)))
                 (Some y1) with
         | Some y => number_value (Some y)
         | None => if number_eqb y0 y1 then number_value (Some y0) else NA
         end
     end)
  <$> seq 0 gap.

Definition anchor_value (last : option number) : value :=
  match last with
  | None => NA
  | Some (Finite q) => Num q
  | Some (Infinite b) => Inf b
  end.

Fixpoint linear_from (last : option number) (gap : nat) (s : Series)
  : result Series :=
  match s with
  | [] => Ok (replicate gap (anchor_value last))
  | NA :: s' => linear_from last (S gap) s'
  | Str _ :: _ =>
      Raise (TypeError "Cannot interpolate with all object-dtype columns")
  | x :: s' =>
      let y := match x with Inf b => Infinite b | Num q => Finite q | _ => Finite 0 end in
      rest ← linear_from (Some y) 0 s';
      let fill :=
        match last with
        | None => replicate gap NA
        | Some y0 => between y0 y gap
        end in
      Ok (fill ++ x :: rest)
  end.

Definition interpolate_no_scipy (method : string) (labels : list nat)
  (s : Series) : result Series :=
  if String.eqb method "linear" then linear_from None 0 s
  else Raise (OSError "Missing optional dependency 'scipy'").

(** ** Vocabulary of the statements about [ffill] and [bfill] *)

Inductive fill : Type := Ffill | Bfill.

Definition apply_fill (f : fill) (s : Series) : Series :=
  match f with
  | Ffill => Series.ffill s
  | Bfill => Series.bfill s
  end.

(** The fills applied one after the other, the first of the list first. *)
Definition apply_fills (fs : list fill) (s : Series) : Series :=
  foldl (λ acc f, apply_fill f acc) s fs.

(** [v] is the nearest valid cell above row [i]. *)
Definition last_valid_before (s : Series) (i : nat) (v : value) : Prop :=
  ∃ j, j < i ∧ s !! j = Some v ∧ notnull v = true ∧
       ∀ k, j < k < i → s !! k = Some NA.

(** [v] is the nearest valid cell below row [i]. *)
Definition next_valid_after (s : Series) (i : nat) (v : value) : Prop :=
  ∃ j, i < j ∧ s !! j = Some v ∧ notnull v = true ∧
       ∀ k, i < k < j → s !! k = Some NA.

Definition none_valid_before (s : Series) (i : nat) : Prop :=
  ∀ k, k < i → s !! k = Some NA.

Definition none_valid_after (s : Series) (i : nat) : Prop :=
  ∀ k, i < k < length s → s !! k = Some NA.

(** ** The frames and configurations of the scenarios *)

Module Scenario.

(** A configuration with one section [[column]] and its [strategy] option. *)
Definition config_for (column strategy : string) : ConfigParser :=
  {| defaults := []; sects := [(column, [("strategy", strategy)])] |}.

Definition frame_A : DataFrame :=
  {| index := [0; 1; 2]; cols := [("A", [Num 1; NA; Num 3])] |}.

Definition frame_AB : DataFrame :=
  {| index := [0; 1; 2];
     cols := [("A", [Num 1; NA; Num 3]); ("B", [Str "x"; NA; Str "z"])] |}.

Definition frame_gaps : DataFrame :=
  {| index := [0; 1; 2; 3]; cols := [("A", [NA; Num 2; NA; Num 4])] |}.

(** Two sections, each with its [strategy] option. *)
Definition config_two (c1 s1 c2 s2 : string) : ConfigParser :=
  {| defaults := [];
     sects := [(c1, [("strategy", s1)]); (c2, [("strategy", s2)])] |}.

(** A text column with an empty text. *)
Definition frame_empty_text : DataFrame :=
  {| index := [0; 1]; cols := [("A", [Str ""; Str "a"])] |}.

(** A text column with a text, an empty text and a null cell. *)
Definition frame_text_gap : DataFrame :=
  {| index := [0; 1; 2]; cols := [("A", [Str "a"; Str ""; NA])] |}.

(** A text column that holds nothing but an empty text and a null cell. *)
Definition frame_no_text : DataFrame :=
  {| index := [0; 1]; cols := [("A", [Str ""; NA])] |}.

(** A numeric column next to a column without any value. *)
Definition frame_blank : DataFrame :=
  {| index := [0; 1; 2];
     cols := [("A", [Num 1; NA; Num 3]); ("B", [NA; NA; NA])] |}.

(** A column without any value before a numeric column. *)
Definition frame_blank_first : DataFrame :=
  {| index := [0; 1]; cols := [("A", [NA; NA]); ("B", [Num 1; Num 2])] |}.

(** A numeric column with a null row next to a complete text column. *)
Definition frame_text : DataFrame :=
  {| index := [0; 1]; cols := [("A", [Num 1; NA]); ("B", [Str "x"; Str "y"])] |}.

End Scenario.

(** ** Vocabulary of the statements about the log *)

(** The record that the pass writes for a column it has cleaned: none for a
    column outside the configuration. *)
Definition info_record (config : ConfigParser) (column : string)
  : list log_record :=
  if existsb (String.eqb (Py.strip column)) (ConfigParser.sections config) then
    match ConfigParser.get config (Py.strip column) "strategy" with
    | Ok s => [(INFO, column +:+ ": cleaned using strategy " +:+ Py.lower s)]
    | Raise _ => []
    end
  else [].

(** The value that [mean] or [median] computes for the column is not NaN.
    It is NaN, for one, when the column holds both infinities. *)
Definition fills_with_a_value (strategy : string) (s : Series) : Prop :=
  (strategy = "mean" → ∀ m, Series.mean s = Ok m → notnull m = true) ∧
  (strategy = "median" → ∀ m, Series.median s = Ok m → notnull m = true).

(** No cell of the column is an infinity. *)
Definition finite (s : Series) : Prop :=
  Forall (λ v, match v with Inf _ => False | _ => True end) s.

(** Two row selections one after the other, as one selection. *)
Fixpoint compose_mask (m1 m2 : list bool) : list bool :=
  match m1 with
  | [] => []
  | true :: m1' =>
      match m2 with
      | [] => []
      | b :: m2' => b :: compose_mask m1' m2'
      end
  | false :: m1' => false :: compose_mask m1' m2
  end.

(** The column has a section in the configuration. *)
Definition configured (config : ConfigParser) (column : string) : bool :=
  existsb (String.eqb (Py.strip column)) (ConfigParser.sections config).

(** The row holds a value in each of the listed columns that the
    configuration names. *)
Definition complete_in (config : ConfigParser) (columns : list string)
  (row : nat * list (string * value)) : bool :=
  forallb (λ column,
             negb (configured config column) ||
             notnull (DataFrame.row_cell column row)) columns.

(** The store of a pass over the frame with trimmed column names, next to
    the store of the pass over the frame as it is. *)
Definition trimmed_store (st t : store) : Prop :=
  passed t = DataFrame.strip_columns (passed st) ∧
  rebound t = DataFrame.strip_columns <$> rebound st.

(** The frames of the store have the column names [names]. *)
Definition named (names : list string) (st : store) : Prop :=
  DataFrame.columns (passed st) = names ∧
  ∀ d, rebound st = Some d → DataFrame.columns d = names.

(** Two configurations that differ at most in the letter case of their
    strategies. *)
Definition same_up_to_case (c1 c2 : ConfigParser) : Prop :=
  ConfigParser.sections c1 = ConfigParser.sections c2 ∧
  ∀ section,
    match ConfigParser.get c1 section "strategy",
          ConfigParser.get c2 section "strategy" with
    | Ok s1, Ok s2 => Py.lower s1 = Py.lower s2
    | Raise e1, Raise e2 => e1 = e2
    | _, _ => False
    end.

(** * Properties *)

(** ** The embedding on small inputs *)

Example strip_trims_both_ends : Py.strip "  GDP growth  " = "GDP growth".
Proof. reflexivity. Qed.

Example lower_folds_case : Py.lower "FFill" = "ffill".
Proof. reflexivity. Qed.

Example mean_skips_nulls : Series.mean [Num 1; NA; Num 3] = Ok (Num 2).
Proof. reflexivity. Qed.

Example mean_of_text_raises :
  Series.mean [Str "x"; NA] = Raise (TypeError "Could not convert string to numeric").
Proof. reflexivity. Qed.

Example median_of_even_count :
  Series.median [Num 7; NA; Num 1; Num 4; Num 3] = Ok (Num (7 # 2)).
Proof. reflexivity. Qed.

Example round_one_tenth :
  round (1 # 10) = Finite (3602879701896397 # 36028797018963968).
Proof. by vm_compute. Qed.

Example mean_is_rounded :
  Series.mean [Num 1; Num 0; NA; Num 0]
  = Ok (Num (6004799503160661 # 18014398509481984)).
Proof. by vm_compute. Qed.

Example mean_overflows :
  Series.mean [Num (inject_Z (2 ^ 1023)); Num (inject_Z (2 ^ 1023))]
  = Ok (Inf true).
Proof. by vm_compute. Qed.

Example mean_of_opposite_infinities :
  Series.mean [Inf true; Num 1; Inf false] = Ok NA.
Proof. reflexivity. Qed.

Example median_of_opposite_infinities :
  Series.median [Inf true; NA; Inf false] = Ok NA.
Proof. reflexivity. Qed.

Example mode_sorts_ties :
  Series.mode [Num 3; NA; Num 1; Num 3; Num 1; NA; NA; Num 2] = [Num 1; Num 3].
Proof. reflexivity. Qed.

Example bfill_leaves_the_tail :
  Series.bfill [NA; Num 2; NA; Num 4; NA] = [Num 2; Num 2; Num 4; Num 4; NA].
Proof. reflexivity. Qed.

Example linear_joins_and_extends :
  interpolate_no_scipy "linear" [0; 1; 2; 3; 4; 5] [NA; Num 1; NA; NA; Num 4; NA]
  = Ok [NA; Num 1; Num 2; Num 3; Num 4; Num 4].
Proof. reflexivity. Qed.

Example linear_from_an_infinity :
  interpolate_no_scipy "linear" [0; 1; 2; 3; 4]
    [Inf true; NA; Num 1; NA; Inf false]
  = Ok [Inf true; Inf true; Num 1; Inf false; Inf false].
Proof. reflexivity. Qed.

Example script_without_data_file :
  script interpolate_no_scipy (Raise (OSError "No such file or directory"))
    (λ _, ConfigParser.Unopenable) true =
  {| cleaned_csv := None; printed := []; logged := [];
     uncaught := Some (OSError "No such file or directory") |}.
Proof. reflexivity. Qed.

Example script_on_the_scenario :
  main interpolate_no_scipy Scenario.frame_AB
    (λ _, ConfigParser.Parsed (Scenario.config_for "A" "linear")) true =
  {| cleaned_csv :=
       Some [("A", [Num 1; Num 2; Num 3]); ("B", [Str "x"; NA; Str "z"])];
     printed := ["Data cleaning process completed successfully!"];
     logged :=
       [(INFO, "Read config file parameter_config.ini successfully.");
        (INFO, "A: cleaned using strategy linear");
        (INFO, "Data cleaning process completed successfully and output saved as cleaned_data.csv")];
     uncaught := None |}.
Proof. reflexivity. Qed.

(** ** The store and the loop *)

Lemma existsb_eqb_elem (x : string) (l : list string) :
  existsb (String.eqb x) l = true ↔ x ∈ l.
Proof.
  rewrite existsb_exists. split.
  - intros (y & Hy & Heq). apply String.eqb_eq in Heq. subst y.
    by apply list_elem_of_In.
  - intros Hx. exists x. split; [by apply list_elem_of_In | apply String.eqb_refl].
Qed.

Lemma df_update f st st' :
  Store.update f st = (Ok (), st') →
  Store.df st' = f (Store.df st) ∧ log st' = log st.
Proof.
  unfold Store.update, Store.df. intros [= <-].
  by destruct (rebound st).
Qed.

Lemma transform_column_eq column f st :
  transform_column column f st =
  match DataFrame.getitem (Store.df st) column with
  | Ok s =>
      match f s with
      | Ok s' => Store.update (DataFrame.loc_setitem column s') st
      | Raise e => (Raise e, st)
      end
  | Raise e => (Raise e, st)
  end.
Proof.
  unfold transform_column, mbind, M_bind, Store.current, Store.lift.
  destruct (DataFrame.getitem (Store.df st) column) as [s|e]; [|done].
  by destruct (f s).
Qed.

Section Steps.

Variable interpolate : string → list nat → Series → result Series.

(** What one strategy can do to the store: rebind [df] to the frame without
    the null rows, assign a new series to the column, or raise and leave the
    store as it was. *)
Lemma apply_strategy_cases column strategy st :
  (strategy = "remove" ∧
   apply_strategy interpolate column strategy st =
   match DataFrame.dropna column (Store.df st) with
   | Ok d => Store.rebind d st
   | Raise e => (Raise e, st)
   end) ∨
  (strategy ≠ "remove" ∧ strategy ∈ strategies ∧
   ∃ f, apply_strategy interpolate column strategy st =
        transform_column column f st) ∨
  ((strategy ∉ strategies) ∧
   apply_strategy interpolate column strategy st =
   (Raise (AttributeError ("invalid strategy (" +:+ strategy +:+ ")")), st)).
Proof.
  unfold apply_strategy, strategies. cbn [existsb].
  repeat match goal with
  | |- context [String.eqb strategy ?c] =>
      destruct (String.eqb_spec strategy c) as [->|?]
  end; simpl.
  all: try (right; left; split; [done|]; split; [rewrite !elem_of_cons; tauto|];
            first [ by eexists
                  | by exists (interpolate _ (index (Store.df st))) ]).
  - left. split; [done|].
    unfold mbind, M_bind, Store.current, Store.lift.
    by destruct (DataFrame.dropna _ _).
  - right. right. split; [|reflexivity].
    rewrite !elem_of_cons, elem_of_nil. tauto.
Qed.

End Steps.

(** ** Frames *)

Lemma assoc_fmap {A B} (f : A → B) key (l : list (string * A)) :
  assoc key ((λ nc : string * A, (nc.1, f nc.2)) <$> l) = f <$> assoc key l.
Proof.
  induction l as [|[k a] l IH]; [done|]. simpl.
  by destruct (String.eqb k key).
Qed.

Lemma assoc_is_Some {A} key (l : list (string * A)) :
  key ∈ l.*1 ↔ is_Some (assoc key l).
Proof.
  induction l as [|[k a] l IH]; simpl.
  - rewrite elem_of_nil. split; [done | by intros [? ?]].
  - rewrite elem_of_cons. destruct (String.eqb_spec k key) as [->|Hne].
    + split; [by eexists | by left].
    + rewrite <- IH. split; [intros [?|?]; congruence || done | by right].
Qed.

Lemma getitem_cells df column :
  column ∈ DataFrame.columns df →
  DataFrame.getitem df column = Ok (DataFrame.cells df column).
Proof.
  intros Hin. apply assoc_is_Some in Hin as [s Hs].
  unfold DataFrame.getitem, DataFrame.cells. by rewrite Hs.
Qed.

Lemma getitem_Ok df column s :
  DataFrame.getitem df column = Ok s →
  column ∈ DataFrame.columns df ∧ DataFrame.cells df column = s.
Proof.
  unfold DataFrame.getitem, DataFrame.cells.
  destruct (assoc column (cols df)) as [s'|] eqn:Hs; [|done].
  intros [= <-]. split; [|done]. apply assoc_is_Some. by rewrite Hs.
Qed.

Lemma keep_length {A B} (mask : list bool) (l : list A) (k : list B) :
  length l = length k →
  length (DataFrame.keep mask l) = length (DataFrame.keep mask k).
Proof.
  revert l k. induction mask as [|b mask IH]; intros [|x l] [|y k]; try done.
  simpl. intros [= Hlen]. destruct b; simpl; auto.
Qed.

Lemma keep_zip {A B} (mask : list bool) (l : list A) (k : list B) :
  zip (DataFrame.keep mask l) (DataFrame.keep mask k) =
  DataFrame.keep mask (zip l k).
Proof.
  revert l k. induction mask as [|b mask IH]; intros [|x l] [|y k]; try done.
  - simpl. by destruct b, (DataFrame.keep mask l).
  - simpl. destruct b; simpl; by rewrite IH.
Qed.

Lemma keep_sublist {A} (mask : list bool) (l : list A) :
  DataFrame.keep mask l `sublist_of` l.
Proof.
  revert l. induction mask as [|b mask IH]; intros [|x l]; simpl;
    try apply sublist_nil_l.
  destruct b; [apply sublist_skip | apply sublist_cons]; apply IH.
Qed.

Lemma keep_nil {A} (mask : list bool) : DataFrame.keep mask (@nil A) = [].
Proof. by destruct mask. Qed.

Lemma keep_keep {A} (m1 m2 : list bool) (l : list A) :
  DataFrame.keep m2 (DataFrame.keep m1 l) = DataFrame.keep (compose_mask m1 m2) l.
Proof.
  revert m2 l. induction m1 as [|b m1 IH]; intros m2 l.
  - simpl. apply keep_nil.
  - destruct l as [|x l]; [by rewrite !keep_nil|].
    destruct b; simpl; [|apply IH].
    destruct m2 as [|b2 m2]; [done|]. simpl. rewrite IH. by destruct b2.
Qed.

Lemma length_compose_mask {A} (m1 m2 : list bool) (l : list A) :
  length l = length m1 →
  length m2 = length (DataFrame.keep m1 l) →
  length (compose_mask m1 m2) = length m1.
Proof.
  revert m2 l. induction m1 as [|b m1 IH]; intros m2 [|x l]; try done.
  simpl. intros [= Hl] Hm2. destruct b; simpl in *.
  - destruct m2 as [|b2 m2]; [done|]. simpl in *. f_equal. eapply IH; [done|lia].
  - f_equal. by eapply IH.
Qed.

Lemma keep_replicate_true {A} n (l : list A) :
  length l ≤ n → DataFrame.keep (replicate n true) l = l.
Proof.
  revert n. induction l as [|x l IH]; intros n Hn; [apply keep_nil|].
  destruct n as [|n]; simpl in *; [lia|]. f_equal. apply IH. lia.
Qed.

(** Keeping the rows marked by the non-null cells of a column is filtering
    the labelled cells of that column. *)
Lemma keep_notnull_filter (labels : list nat) (s : Series) :
  DataFrame.keep (notnull <$> s) (zip labels s) =
  filter (λ r : nat * value, notnull r.2 = true) (zip labels s).
Proof.
  revert labels. induction s as [|x s IH]; intros [|l labels]; try done.
  simpl. rewrite filter_cons. simpl.
  destruct (notnull x); cbn; by rewrite <- IH.
Qed.

Lemma keep_Forall {A} (P : A → Prop) (mask : list bool) (l : list A) :
  Forall P l → Forall P (DataFrame.keep mask l).
Proof.
  rewrite !Forall_forall. intros H x Hx.
  apply H. eapply elem_of_sublist; [done | apply keep_sublist].
Qed.

Lemma filter_sublist {A} (P : A → Prop) `{!∀ x, Decision (P x)} (l k : list A) :
  l `sublist_of` k → filter P l `sublist_of` filter P k.
Proof.
  induction 1 as [|x l k _ IH|x l k _ IH]; [done| |].
  - rewrite !filter_cons. case_decide; [by apply sublist_skip | done].
  - rewrite filter_cons. case_decide; [by apply sublist_cons | done].
Qed.

Lemma columns_loc_setitem column s df :
  DataFrame.columns (DataFrame.loc_setitem column s df) = DataFrame.columns df.
Proof.
  unfold DataFrame.columns, DataFrame.loc_setitem. simpl.
  rewrite <- list_fmap_compose. apply list_fmap_ext. intros _ [n c] _. simpl.
  by destruct (String.eqb n column).
Qed.

Lemma cells_loc_setitem_ne column s df other :
  other ≠ column →
  DataFrame.cells (DataFrame.loc_setitem column s df) other =
  DataFrame.cells df other.
Proof.
  intros Hne. unfold DataFrame.cells, DataFrame.loc_setitem. simpl.
  induction (cols df) as [|[n c] l IH]; [done|]. simpl.
  destruct (String.eqb_spec n column) as [->|Hn]; simpl.
  - destruct (String.eqb_spec column other) as [->|_]; [done | apply IH].
  - destruct (String.eqb n other); [done | apply IH].
Qed.

Lemma cells_loc_setitem_eq column s df :
  column ∈ DataFrame.columns df →
  DataFrame.cells (DataFrame.loc_setitem column s df) column =
  resize (length (index df)) NA s.
Proof.
  unfold DataFrame.cells, DataFrame.loc_setitem, DataFrame.columns. simpl.
  induction (cols df) as [|[n c] l IH]; simpl.
  - by rewrite elem_of_nil.
  - rewrite elem_of_cons. intros Hin.
    destruct (String.eqb_spec n column) as [->|Hn]; simpl.
    + by rewrite String.eqb_refl.
    + destruct (String.eqb_spec n column); [done|].
      apply IH. by destruct Hin.
Qed.

Lemma well_formed_loc_setitem column s df :
  DataFrame.well_formed df →
  DataFrame.well_formed (DataFrame.loc_setitem column s df).
Proof.
  intros [Hnd Hlen]. split; [by rewrite columns_loc_setitem|].
  unfold DataFrame.loc_setitem. simpl.
  apply Forall_fmap. eapply Forall_impl; [exact Hlen|].
  intros [n c] Hc. simpl in *.
  destruct (String.eqb n column); simpl; [by rewrite length_resize | done].
Qed.

Lemma dropna_Ok column df d :
  DataFrame.dropna column df = Ok d →
  column ∈ DataFrame.columns df ∧
  d = {| index := DataFrame.keep (notnull <$> DataFrame.cells df column) (index df);
         cols := (λ nc : string * Series,
                    (nc.1, DataFrame.keep (notnull <$> DataFrame.cells df column) nc.2))
                 <$> cols df |}.
Proof.
  unfold DataFrame.dropna, mbind, result_bind.
  destruct (DataFrame.getitem df column) as [s|e] eqn:Hs; [|done].
  apply getitem_Ok in Hs as [Hin <-]. by intros [= <-].
Qed.

Lemma columns_dropna column df d :
  DataFrame.dropna column df = Ok d →
  DataFrame.columns d = DataFrame.columns df.
Proof.
  intros [_ ->]%dropna_Ok. unfold DataFrame.columns. simpl.
  rewrite <- list_fmap_compose. by apply list_fmap_ext.
Qed.

Lemma cells_dropna column df d other :
  DataFrame.dropna column df = Ok d →
  DataFrame.cells d other =
  DataFrame.keep (notnull <$> DataFrame.cells df column) (DataFrame.cells df other).
Proof.
  intros [_ ->]%dropna_Ok.
  generalize (notnull <$> DataFrame.cells df column). intros mask.
  unfold DataFrame.cells. simpl. rewrite assoc_fmap.
  destruct (assoc other (cols df)); simpl; [done|].
  by destruct mask.
Qed.

Lemma labelled_dropna column df d other :
  DataFrame.dropna column df = Ok d →
  DataFrame.labelled d other =
  DataFrame.keep (notnull <$> DataFrame.cells df column) (DataFrame.labelled df other).
Proof.
  intros Hd. unfold DataFrame.labelled.
  rewrite (cells_dropna _ _ _ _ Hd), <- keep_zip.
  by apply dropna_Ok in Hd as [_ ->].
Qed.

Lemma well_formed_dropna column df d :
  DataFrame.well_formed df →
  DataFrame.dropna column df = Ok d →
  DataFrame.well_formed d.
Proof.
  intros [Hnd Hlen] Hd. split; [by rewrite (columns_dropna _ _ _ Hd)|].
  apply dropna_Ok in Hd as [_ ->]. simpl.
  apply Forall_fmap. eapply Forall_impl; [exact Hlen|].
  intros [n c] Hc. simpl in *. by apply keep_length.
Qed.

Lemma cells_absent df column :
  column ∉ DataFrame.columns df → DataFrame.cells df column = [].
Proof.
  intros Hin. unfold DataFrame.cells.
  destruct (assoc column (cols df)) as [c|] eqn:Hc; [|done].
  destruct Hin. apply assoc_is_Some. by rewrite Hc.
Qed.

Lemma well_formed_cells df column :
  DataFrame.well_formed df → column ∈ DataFrame.columns df →
  length (DataFrame.cells df column) = length (index df).
Proof.
  intros [_ Hlen] Hin. unfold DataFrame.cells, DataFrame.columns in *.
  induction (cols df) as [|[n c] l IH]; simpl in *.
  - by apply elem_of_nil in Hin.
  - apply Forall_cons in Hlen as [Hc Hl].
    destruct (String.eqb_spec n column) as [->|Hn]; [done|].
    apply IH; [done|]. apply elem_of_cons in Hin as [?|?]; [congruence | done].
Qed.

Lemma cells_length_le df column :
  DataFrame.well_formed df →
  length (DataFrame.cells df column) ≤ length (index df).
Proof.
  intros Hwf. destruct (decide (column ∈ DataFrame.columns df)) as [Hin|Hin].
  - by rewrite well_formed_cells.
  - rewrite cells_absent by done. simpl. lia.
Qed.

(** ** One column of the pass *)

Section Pass.

Variable interpolate : string → list nat → Series → result Series.
Variable config : ConfigParser.

Lemma apply_strategy_raise column strategy st e st' :
  apply_strategy interpolate column strategy st = (Raise e, st') → st' = st.
Proof.
  destruct (apply_strategy_cases interpolate column strategy st)
    as [[_ ->]|[(_ & _ & f & ->)|[_ ->]]].
  - destruct (DataFrame.dropna _ _); [done | congruence].
  - rewrite transform_column_eq.
    destruct (DataFrame.getitem _ _) as [s|]; [|congruence].
    destruct (f s); [done | congruence].
  - congruence.
Qed.

Lemma apply_strategy_ok column strategy st u st' :
  apply_strategy interpolate column strategy st = (Ok u, st') →
  log st' = log st ∧
  ((strategy = "remove" ∧ passed st' = passed st ∧
    DataFrame.dropna column (Store.df st) = Ok (Store.df st')) ∨
   (strategy ≠ "remove" ∧ strategy ∈ strategies ∧
    column ∈ DataFrame.columns (Store.df st) ∧
    ∃ series, Store.df st' = DataFrame.loc_setitem column series (Store.df st))).
Proof.
  destruct u.
  destruct (apply_strategy_cases interpolate column strategy st)
    as [[Hr ->]|[(Hr & Hin & f & ->)|[_ ->]]]; [| |done].
  - destruct (DataFrame.dropna _ _) as [d|] eqn:Hd; [|done].
    unfold Store.rebind. intros [= <-]. split; [done|]. by left.
  - rewrite transform_column_eq.
    destruct (DataFrame.getitem _ _) as [s|] eqn:Hs; [|done].
    destruct (f s) as [s'|]; [|done].
    intros [Hdf Hlog]%df_update. split; [done|]. right.
    apply getitem_Ok in Hs as [Hc _]. eauto.
Qed.

Lemma process_column_eq column st :
  process_column interpolate config column st =
  if existsb (String.eqb (Py.strip column)) (ConfigParser.sections config) then
    match ConfigParser.get config (Py.strip column) "strategy" with
    | Ok s =>
        match apply_strategy interpolate column (Py.lower s) st with
        | (Ok _, st') =>
            Store.logging INFO
              (column +:+ ": cleaned using strategy " +:+ Py.lower s) st'
        | (Raise e, st') => (Raise e, st')
        end
    | Raise e => (Raise e, st)
    end
  else (Ok (), st).
Proof.
  unfold process_column, mbind, M_bind, Store.lift.
  destruct (existsb _ _); [|done].
  by destruct (ConfigParser.get _ _ _).
Qed.

(** A column whose processing raises leaves the store as it found it. *)
Lemma process_column_raise column st e st' :
  process_column interpolate config column st = (Raise e, st') → st' = st.
Proof.
  rewrite process_column_eq.
  destruct (existsb _ _); [|done].
  destruct (ConfigParser.get _ _ _) as [s|]; [|congruence].
  destruct (apply_strategy _ _ _ _) as [[u|e'] st''] eqn:Ha; [done|].
  intros [= <- <-]. by eapply apply_strategy_raise.
Qed.

Lemma process_column_ok column st u st' :
  process_column interpolate config column st = (Ok u, st') →
  ((Py.strip column ∉ ConfigParser.sections config) ∧ st' = st) ∨
  (∃ s, Py.strip column ∈ ConfigParser.sections config ∧
        ConfigParser.get config (Py.strip column) "strategy" = Ok s ∧
        log st' = log st ++ [(INFO, column +:+ ": cleaned using strategy " +:+ Py.lower s)] ∧
        ((Py.lower s = "remove" ∧ passed st' = passed st ∧
          DataFrame.dropna column (Store.df st) = Ok (Store.df st')) ∨
         (Py.lower s ≠ "remove" ∧ Py.lower s ∈ strategies ∧
          column ∈ DataFrame.columns (Store.df st) ∧
          ∃ series,
            Store.df st' = DataFrame.loc_setitem column series (Store.df st)))).
Proof.
  destruct u. rewrite process_column_eq.
  destruct (existsb _ _) eqn:Hsec.
  - apply existsb_eqb_elem in Hsec.
    destruct (ConfigParser.get _ _ _) as [s|]; [|done].
    destruct (apply_strategy _ _ _ _) as [[v|e'] st''] eqn:Ha; [|done].
    intros [= <-]. right. exists s.
    apply apply_strategy_ok in Ha as [Hlog Ha].
    split; [done|]. split; [done|]. simpl. rewrite Hlog. split; [done|].
    exact Ha.
  - intros [= <-]. left. split; [|done].
    rewrite <- existsb_eqb_elem. by rewrite Hsec.
Qed.

(** ** The loop *)

Lemma for_columns_app (body : string → M unit) pre post st :
  for_columns body (pre ++ post) st =
  match for_columns body pre st with
  | (Completed, st1) => for_columns body post st1
  | exit => exit
  end.
Proof.
  revert st. induction pre as [|column pre IH]; intros st; simpl; [done|].
  destruct (body column st) as [[u|e] st1]; [apply IH | done].
Qed.

Lemma for_columns_invariant (I : store → Prop) (body : string → M unit)
    columns st st' :
  (∀ column s u s',
     column ∈ columns → I s → body column s = (Ok u, s') → I s') →
  I st →
  for_columns body columns st = (Completed, st') →
  I st'.
Proof.
  revert st. induction columns as [|column columns IH]; intros st Hstep Hst; simpl.
  - by intros [= <-].
  - destruct (body column st) as [[u|e] st1] eqn:Hb; [|done].
    apply IH.
    + intros c s v s' Hc. apply Hstep. by right.
    + eapply Hstep; [by left | done | done].
Qed.

Lemma for_columns_raised (body : string → M unit) columns st column e st' :
  for_columns body columns st = (Raised column e, st') →
  ∃ pre post st1,
    columns = pre ++ column :: post ∧
    for_columns body pre st = (Completed, st1) ∧
    body column st1 = (Raise e, st').
Proof.
  revert st. induction columns as [|c columns IH]; intros st; simpl; [done|].
  destruct (body c st) as [[u|e'] st1] eqn:Hb.
  - intros (pre & post & st2 & -> & Hpre & Hc)%IH.
    exists (c :: pre), post, st2. simpl. by rewrite Hb.
  - intros [= -> -> ->]. by exists [], columns, st.
Qed.

(** The column names and the shape of the frame survive every column of the
    pass. *)
Lemma process_column_shape column st u st' :
  process_column interpolate config column st = (Ok u, st') →
  DataFrame.columns (Store.df st') = DataFrame.columns (Store.df st) ∧
  (DataFrame.well_formed (Store.df st) → DataFrame.well_formed (Store.df st')).
Proof.
  intros [[_ ->]|(s & _ & _ & _ & [(_ & _ & Hd)|(_ & _ & _ & series & ->)])]%process_column_ok.
  - done.
  - split; [by eapply columns_dropna | intros; by eapply well_formed_dropna].
  - split; [apply columns_loc_setitem | apply well_formed_loc_setitem].
Qed.

(** A column of the pass leaves the rows of another column in place, apart
    from those that a removal drops. *)
Lemma process_column_other column other st u st' :
  column ≠ other →
  process_column interpolate config column st = (Ok u, st') →
  DataFrame.labelled (Store.df st') other `sublist_of`
    DataFrame.labelled (Store.df st) other.
Proof.
  intros Hne [[_ ->]|(s & _ & _ & _ & [(_ & _ & Hd)|(_ & _ & _ & series & ->)])]%process_column_ok.
  - done.
  - rewrite (labelled_dropna _ _ _ _ Hd). apply keep_sublist.
  - unfold DataFrame.labelled. by rewrite cells_loc_setitem_ne.
Qed.

(** A column of the pass selects rows of the frame, the same ones in the
    row labels and in every column that the configuration does not name. *)
Lemma process_column_selects column st u st' :
  DataFrame.well_formed (Store.df st) →
  process_column interpolate config column st = (Ok u, st') →
  ∃ mask,
    length mask = length (index (Store.df st)) ∧
    index (Store.df st') = DataFrame.keep mask (index (Store.df st)) ∧
    ∀ other, Py.strip other ∉ ConfigParser.sections config →
      DataFrame.cells (Store.df st') other =
      DataFrame.keep mask (DataFrame.cells (Store.df st) other).
Proof.
  intros Hwf [[_ ->]|(s & Hsec & _ & _ & [(_ & _ & Hd)|(_ & _ & _ & series & ->)])]%process_column_ok.
  - exists (replicate (length (index (Store.df st))) true).
    rewrite length_replicate. split; [done|].
    split; [by rewrite keep_replicate_true|].
    intros other _. rewrite keep_replicate_true; [done|by apply cells_length_le].
  - exists (notnull <$> DataFrame.cells (Store.df st) column).
    pose proof Hd as [Hin Heq]%dropna_Ok.
    rewrite length_fmap. split; [by apply well_formed_cells|].
    split; [by rewrite Heq|].
    intros other _. by eapply cells_dropna.
  - exists (replicate (length (index (Store.df st))) true).
    rewrite length_replicate. split; [done|].
    split; [by rewrite keep_replicate_true|].
    intros other Hother.
    rewrite cells_loc_setitem_ne by (intros ->; done).
    rewrite keep_replicate_true; [done|by apply cells_length_le].
Qed.

Lemma process_column_other_Forall (P : value → Prop) column other st u st' :
  column ≠ other →
  process_column interpolate config column st = (Ok u, st') →
  Forall P (DataFrame.cells (Store.df st) other) →
  Forall P (DataFrame.cells (Store.df st') other).
Proof.
  intros Hne [[_ ->]|(s & _ & _ & _ & [(_ & _ & Hd)|(_ & _ & _ & series & ->)])]%process_column_ok.
  - done.
  - rewrite (cells_dropna _ _ _ _ Hd). apply keep_Forall.
  - by rewrite cells_loc_setitem_ne.
Qed.

(** Without a removal the rows stay, and so do the cells of the other
    columns. *)
Lemma process_column_no_remove column st u st' :
  (∀ s, ConfigParser.get config (Py.strip column) "strategy" = Ok s →
        Py.lower s ≠ "remove") →
  process_column interpolate config column st = (Ok u, st') →
  index (Store.df st') = index (Store.df st) ∧
  ∀ other, column ≠ other →
    DataFrame.cells (Store.df st') other = DataFrame.cells (Store.df st) other.
Proof.
  intros Hno [[_ ->]|(s & _ & Hs & _ & [(Hr & _)|(_ & _ & _ & series & ->)])]%process_column_ok.
  - done.
  - by apply Hno in Hs.
  - split; [done|]. intros other Hne. by apply cells_loc_setitem_ne.
Qed.

(** An unconfigured column is skipped. *)
Lemma process_column_skip column st :
  Py.strip column ∉ ConfigParser.sections config →
  process_column interpolate config column st = (Ok (), st).
Proof.
  intros Hsec. rewrite process_column_eq.
  destruct (existsb _ _) eqn:He; [|done].
  by apply existsb_eqb_elem in He.
Qed.

Lemma input_missing_data_Some df records d st :
  input_missing_data interpolate df config records = (Some d, st) →
  for_columns (process_column interpolate config) (DataFrame.columns df)
    (Store.enter df records) = (Completed, st) ∧
  d = Store.df st.
Proof.
  unfold input_missing_data.
  destruct (for_columns _ _ _) as [[|column e] st1]; [|done].
  by intros [= <- <-].
Qed.

Lemma for_columns_shape columns st st' :
  for_columns (process_column interpolate config) columns st = (Completed, st') →
  DataFrame.columns (Store.df st') = DataFrame.columns (Store.df st) ∧
  (DataFrame.well_formed (Store.df st) → DataFrame.well_formed (Store.df st')).
Proof.
  apply (for_columns_invariant
           (λ s, DataFrame.columns (Store.df s) = DataFrame.columns (Store.df st) ∧
                 (DataFrame.well_formed (Store.df st) →
                  DataFrame.well_formed (Store.df s)))); [|done].
  intros column s u s' _ [Hc Hwf] [Hc' Hwf']%process_column_shape.
  split; [congruence | auto].
Qed.

End Pass.

(** The only strategy a one-section configuration hands out. *)
Lemma config_for_get column strategy section s :
  ConfigParser.get (Scenario.config_for column strategy) section "strategy" = Ok s →
  s = strategy.
Proof.
  unfold ConfigParser.get, Scenario.config_for. cbn [sects defaults assoc].
  destruct (String.eqb column section); [|done].
  change (Py.lower "strategy") with "strategy". cbn [assoc].
  rewrite String.eqb_refl. by intros [= <-].
Qed.

(** ** Row count without removal *)

(** C4. When no section of the configuration asks for [remove], the frame
    that [input_missing_data] returns has the rows of the frame it was
    given: the same row labels in the same order, hence the same number of
    rows, under the same column names, and a well-formed frame stays
    well-formed. *)
Theorem rows_preserved_without_remove interpolate df config records d st :
  (∀ section s, ConfigParser.get config section "strategy" = Ok s →
                Py.lower s ≠ "remove") →
  input_missing_data interpolate df config records = (Some d, st) →
  index d = index df ∧
  length (index d) = length (index df) ∧
  DataFrame.columns d = DataFrame.columns df ∧
  (DataFrame.well_formed df → DataFrame.well_formed d).
Proof.
  intros Hno [Hloop ->]%input_missing_data_Some.
  assert (index (Store.df st) = index df) as Hindex.
  { revert Hloop.
    apply (for_columns_invariant (λ s, index (Store.df s) = index df)); [|done].
    intros column s u s' _ Hs Hstep.
    apply process_column_no_remove in Hstep as [-> _]; [done|].
    intros s0. apply Hno. }
  apply for_columns_shape in Hloop as [Hcols Hwf].
  by rewrite Hindex.
Qed.

Lemma rows_preserved_without_remove_witness :
  ∃ d st,
    input_missing_data interpolate_no_scipy Scenario.frame_AB
      (Scenario.config_for "A" "mean") [] = (Some d, st) ∧
    index d = index Scenario.frame_AB.
Proof.
  eexists _, _. split; [reflexivity|].
  eapply (rows_preserved_without_remove interpolate_no_scipy Scenario.frame_AB
            (Scenario.config_for "A" "mean") []).
  - intros section s ->%config_for_get. by vm_compute.
  - reflexivity.
Defined.

(** ** Columns outside the configuration *)

(** C7, as the code has it.  A column whose trimmed name is no section of
    the configuration keeps its cells, null ones included, in the rows that
    remain.  In the returned frame its labelled cells are those of the given
    frame in the same order, short of the rows that a [remove] on another
    column dropped.  On a well-formed frame the returned frame is a
    selection of the rows of the given one, one mark per row, and every
    column that the configuration does not name holds, in the rows that
    remain, the cells it held in those rows.  When no section asks for
    [remove] the column is identical.  With
    [{A: [1, null, 3], B: [x, null, z]}] and [A: mean] the result is
    [{A: [1, 2, 3], B: [x, null, z]}]. *)
Theorem unconfigured_column_untouched interpolate df config records other d st :
  other ∈ DataFrame.columns df →
  Py.strip other ∉ ConfigParser.sections config →
  input_missing_data interpolate df config records = (Some d, st) →
  DataFrame.labelled d other `sublist_of` DataFrame.labelled df other ∧
  (DataFrame.well_formed df →
   ∃ mask,
     length mask = length (index df) ∧
     index d = DataFrame.keep mask (index df) ∧
     ∀ column, Py.strip column ∉ ConfigParser.sections config →
       DataFrame.cells d column = DataFrame.keep mask (DataFrame.cells df column)) ∧
  ((∀ section s, ConfigParser.get config section "strategy" = Ok s →
                 Py.lower s ≠ "remove") →
   DataFrame.cells d other = DataFrame.cells df other) ∧
  (input_missing_data interpolate Scenario.frame_AB
     (Scenario.config_for "A" "mean") []).1 =
  Some {| index := [0; 1; 2];
          cols := [("A", [Num 1; Num 2; Num 3]);
                   ("B", [Str "x"; NA; Str "z"])] |}.
Proof.
  intros _ Hsec [Hloop ->]%input_missing_data_Some.
  split; [|split; [|split; [|reflexivity]]].
  - revert Hloop.
    apply (for_columns_invariant
             (λ s, DataFrame.labelled (Store.df s) other `sublist_of`
                   DataFrame.labelled df other)); [|done].
    intros column s u s' _ Hs Hstep.
    destruct (decide (column = other)) as [->|Hne].
    + rewrite process_column_skip in Hstep by done. by injection Hstep as _ <-.
    + etrans; [by eapply process_column_other | done].
  - intros Hwf.
    assert (DataFrame.well_formed (Store.df st) ∧
            ∃ mask,
              length mask = length (index df) ∧
              index (Store.df st) = DataFrame.keep mask (index df) ∧
              ∀ column, Py.strip column ∉ ConfigParser.sections config →
                DataFrame.cells (Store.df st) column =
                DataFrame.keep mask (DataFrame.cells df column)) as [_ H];
      [|exact H].
    revert Hloop.
    apply (for_columns_invariant
             (λ s, DataFrame.well_formed (Store.df s) ∧
                   ∃ mask,
                     length mask = length (index df) ∧
                     index (Store.df s) = DataFrame.keep mask (index df) ∧
                     ∀ column, Py.strip column ∉ ConfigParser.sections config →
                       DataFrame.cells (Store.df s) column =
                       DataFrame.keep mask (DataFrame.cells df column))).
    + intros column s u s' _ [Hs (m1 & Hlen1 & Hindex1 & Hcells1)] Hstep.
      split; [by eapply process_column_shape|].
      destruct (process_column_selects _ _ _ _ _ _ Hs Hstep)
        as (m2 & Hlen2 & Hindex2 & Hcells2).
      exists (compose_mask m1 m2). split; [|split].
      * rewrite <- Hlen1.
        apply (length_compose_mask m1 m2 (index df)); [done|].
        by rewrite Hlen2, Hindex1.
      * by rewrite Hindex2, Hindex1, keep_keep.
      * intros c Hc. by rewrite Hcells2, Hcells1, keep_keep.
    + split; [done|]. exists (replicate (length (index df)) true).
      rewrite length_replicate. split; [done|].
      change (Store.df (Store.enter df records)) with df.
      split; [by rewrite keep_replicate_true|].
      intros c _. rewrite keep_replicate_true; [done|by apply cells_length_le].
  - intros Hno. revert Hloop.
    apply (for_columns_invariant
             (λ s, DataFrame.cells (Store.df s) other =
                   DataFrame.cells df other)); [|done].
    intros column s u s' _ Hs Hstep.
    destruct (decide (column = other)) as [->|Hne].
    + rewrite process_column_skip in Hstep by done. by injection Hstep as _ <-.
    + apply process_column_no_remove in Hstep as [_ Hcells];
        [|intros s0; apply Hno].
      by rewrite Hcells.
Qed.

Lemma unconfigured_column_untouched_witness :
  ∃ d st,
    input_missing_data interpolate_no_scipy Scenario.frame_AB
      (Scenario.config_for "A" "mean") [] = (Some d, st) ∧
    DataFrame.labelled d "B" `sublist_of` DataFrame.labelled Scenario.frame_AB "B".
Proof.
  eexists _, _. split; [reflexivity|].
  eapply (unconfigured_column_untouched interpolate_no_scipy Scenario.frame_AB
            (Scenario.config_for "A" "mean") [] "B").
  - compute_done.
  - compute_done.
  - reflexivity.
Defined.

(** C7 as stated fails: a [remove] on column [A] drops the second row of the
    whole frame, and with it a cell of column [B], which the configuration
    does not name. *)
Lemma unconfigured_column_loses_rows :
  "B" ∈ DataFrame.columns Scenario.frame_text ∧
  (Py.strip "B" ∉ ConfigParser.sections (Scenario.config_for "A" "remove")) ∧
  ∃ d st,
    input_missing_data interpolate_no_scipy Scenario.frame_text
      (Scenario.config_for "A" "remove") [] = (Some d, st) ∧
    DataFrame.cells Scenario.frame_text "B" = [Str "x"; Str "y"] ∧
    DataFrame.cells d "B" = [Str "x"] ∧
    DataFrame.cells d "B" ≠ DataFrame.cells Scenario.frame_text "B".
Proof.
  split; [compute_done|]. split; [compute_done|].
  eexists _, _. split; [reflexivity|]. by vm_compute.
Qed.

(** ** Forward and backward fill *)

Lemma isnull_NA v : isnull v = true ↔ v = NA.
Proof. destruct v; naive_solver. Qed.

Lemma notnull_not_NA v : notnull v = true ↔ v ≠ NA.
Proof. destruct v; naive_solver. Qed.

Lemma length_ffill_from last s : length (Series.ffill_from last s) = length s.
Proof.
  revert last. induction s as [|x s IH]; intros last; simpl; [done|].
  destruct (isnull x); simpl; by rewrite IH.
Qed.

Lemma length_bfill s : length (Series.bfill s) = length s.
Proof. induction s as [|x s IH]; simpl; [done | by rewrite IH]. Qed.

(** Below a run of nulls the carried value is still the one on entry. *)
Lemma ffill_from_nulls last s i :
  i < length s → (∀ k, k ≤ i → s !! k = Some NA) →
  Series.ffill_from last s !! i = Some last.
Proof.
  revert i. induction s as [|x s IH]; intros i Hi Hnull; simpl in *; [lia|].
  pose proof (Hnull 0 ltac:(lia)) as H0. simpl in H0. injection H0 as ->. simpl.
  destruct i as [|i]; [done|]. simpl. apply IH; [lia|].
  intros k Hk. apply (Hnull (S k)). lia.
Qed.

(** The cell at row [i] after a forward fill is the valid cell at row
    [j ≤ i] when all rows between them are null. *)
Lemma ffill_from_lookup last s i j v :
  j ≤ i → s !! j = Some v → notnull v = true →
  (∀ k, j < k ≤ i → s !! k = Some NA) → i < length s →
  Series.ffill_from last s !! i = Some v.
Proof.
  revert last i j. induction s as [|x s IH]; intros last i j Hji Hj Hv Hnull Hi;
    [done|].
  destruct j as [|j].
  - simpl in Hj. injection Hj as ->. simpl.
    apply notnull_not_NA in Hv. destruct (isnull v) eqn:Hn.
    { by apply isnull_NA in Hn. }
    destruct i as [|i]; [done|]. simpl in *.
    apply ffill_from_nulls; [lia|].
    intros k Hk. apply (Hnull (S k)). lia.
  - destruct i as [|i]; [lia|]. simpl in *.
    assert (∀ a, Series.ffill_from a s !! i = Some v) as Hrec.
    { intros a. apply (IH a i j); [lia|done|done| |lia].
      intros k Hk. apply (Hnull (S k)). lia. }
    destruct (isnull x); simpl; apply Hrec.
Qed.

Lemma bfill_lookup s i j v :
  i ≤ j → s !! j = Some v → notnull v = true →
  (∀ k, i ≤ k < j → s !! k = Some NA) →
  Series.bfill s !! i = Some v.
Proof.
  revert i j. induction s as [|x s IH]; intros i j Hij Hj Hv Hnull; [done|].
  destruct i as [|i].
  - destruct j as [|j].
    + simpl in Hj. injection Hj as ->. simpl.
      apply notnull_not_NA in Hv. destruct (isnull v) eqn:Hn; [|done].
      by apply isnull_NA in Hn.
    + pose proof (Hnull 0 ltac:(lia)) as H0. simpl in H0. injection H0 as ->.
      simpl in *.
      rewrite head_lookup, (IH 0 j); [done|lia|done|done|].
      intros k Hk. apply (Hnull (S k)). lia.
  - destruct j as [|j]; [lia|]. simpl in *.
    apply (IH i j); [lia|done|done|].
    intros k Hk. apply (Hnull (S k)). lia.
Qed.

Lemma bfill_nulls s i :
  i < length s → (∀ k, i ≤ k < length s → s !! k = Some NA) →
  Series.bfill s !! i = Some NA.
Proof.
  revert i. induction s as [|x s IH]; intros i Hi Hnull; simpl in *; [lia|].
  destruct i as [|i].
  - pose proof (Hnull 0 ltac:(lia)) as H0. simpl in H0. injection H0 as ->.
    simpl. destruct s as [|y s]; [done|].
    rewrite head_lookup, (IH 0); [done|simpl; lia|].
    intros k Hk. apply (Hnull (S k)). simpl in *. lia.
  - simpl. apply IH; [lia|].
    intros k Hk. apply (Hnull (S k)). lia.
Qed.

Lemma ffill_from_idempotent last s :
  Series.ffill_from last (Series.ffill_from last s) = Series.ffill_from last s.
Proof.
  revert last. induction s as [|x s IH]; intros last; simpl; [done|].
  destruct (isnull x) eqn:Hx; simpl.
  - rewrite IH. by destruct (isnull last).
  - by rewrite Hx, IH.
Qed.

Lemma bfill_idempotent s : Series.bfill (Series.bfill s) = Series.bfill s.
Proof.
  induction s as [|x s IH]; simpl; [done|].
  rewrite IH. f_equal.
  destruct (isnull x) eqn:Hx; [|by rewrite Hx].
  by destruct (isnull (default NA (head (Series.bfill s)))).
Qed.

Lemma apply_fill_valid f s i v :
  s !! i = Some v → notnull v = true → apply_fill f s !! i = Some v.
Proof.
  intros Hi Hv. destruct f; simpl.
  - apply (ffill_from_lookup NA s i i v); [lia|done|done|intros; lia|].
    by eapply lookup_lt_Some.
  - apply (bfill_lookup s i i v); [lia|done|done|intros; lia].
Qed.

(** C6. Forward and backward fills, applied in any number and order, leave
    every cell that holds a value as it is, and each of the two is
    idempotent: filling a filled column again changes nothing. *)
Theorem fills_keep_values_and_are_idempotent (fs : list fill) (s : Series) :
  (∀ i v, s !! i = Some v → notnull v = true →
          apply_fills fs s !! i = Some v) ∧
  Series.ffill (Series.ffill s) = Series.ffill s ∧
  Series.bfill (Series.bfill s) = Series.bfill s.
Proof.
  split; [|split; [apply ffill_from_idempotent | apply bfill_idempotent]].
  revert s. induction fs as [|f fs IH]; intros s i v Hi Hv; [done|].
  simpl. apply IH; [|done]. by apply apply_fill_valid.
Qed.

Lemma fills_keep_values_and_are_idempotent_witness :
  apply_fills [Ffill; Bfill; Bfill; Ffill] [NA; Num 2; NA; Num 4; NA] !! 3
  = Some (Num 4).
Proof.
  apply (proj1 (fills_keep_values_and_are_idempotent
                  [Ffill; Bfill; Bfill; Ffill] [NA; Num 2; NA; Num 4; NA])
           3 (Num 4)); reflexivity.
Defined.

(** A strategy that assigns [f (df[column])] to the column. *)
Lemma process_column_assign interpolate config column s f series st :
  Py.strip column ∈ ConfigParser.sections config →
  ConfigParser.get config (Py.strip column) "strategy" = Ok s →
  apply_strategy interpolate column (Py.lower s) st = transform_column column f st →
  column ∈ DataFrame.columns (Store.df st) →
  f (DataFrame.cells (Store.df st) column) = Ok series →
  ∃ st',
    process_column interpolate config column st = (Ok (), st') ∧
    Store.df st' = DataFrame.loc_setitem column series (Store.df st) ∧
    log st' = log st ++ [(INFO, column +:+ ": cleaned using strategy " +:+ Py.lower s)].
Proof.
  intros Hsec Hget Happly Hin Hf.
  rewrite process_column_eq.
  apply existsb_eqb_elem in Hsec. rewrite Hsec, Hget, Happly.
  rewrite transform_column_eq, (getitem_cells _ _ Hin), Hf.
  destruct (Store.update _ st) as [[[]|e] st1] eqn:Hu; [|done].
  apply df_update in Hu as [Hdf Hlog].
  eexists. split; [done|]. simpl. by rewrite Hlog.
Qed.

Lemma cells_loc_setitem_same column series df :
  DataFrame.well_formed df → column ∈ DataFrame.columns df →
  length series = length (DataFrame.cells df column) →
  DataFrame.cells (DataFrame.loc_setitem column series df) column = series.
Proof.
  intros Hwf Hin Hlen. rewrite cells_loc_setitem_eq by done.
  apply resize_all_alt. by rewrite Hlen, well_formed_cells.
Qed.

(** C5, as the code has it: the cells that are filled are the null ones,
    and a valid cell is one that is not null.  On a column configured with
    [ffill], a null cell takes the nearest valid cell above it in row order
    and stays null when no cell above it is valid; with [bfill] it takes the
    nearest valid cell below it and stays null when none is.  The rows stay
    as they are.  With
    [{A: [null, 2, null, 4]}] and [A: ffill] the result is
    [{A: [null, 2, 2, 4]}]. *)
Theorem ffill_bfill_propagate interpolate config column strategy st :
  DataFrame.well_formed (Store.df st) →
  column ∈ DataFrame.columns (Store.df st) →
  Py.strip column ∈ ConfigParser.sections config →
  ConfigParser.get config (Py.strip column) "strategy" = Ok strategy →
  let old := DataFrame.cells (Store.df st) column in
  (Py.lower strategy = "ffill" →
   ∃ st', process_column interpolate config column st = (Ok (), st') ∧
          index (Store.df st') = index (Store.df st) ∧
          let new := DataFrame.cells (Store.df st') column in
          length new = length old ∧
          ∀ i, old !! i = Some NA →
               (∀ v, last_valid_before old i v → new !! i = Some v) ∧
               (none_valid_before old i → new !! i = Some NA)) ∧
  (Py.lower strategy = "bfill" →
   ∃ st', process_column interpolate config column st = (Ok (), st') ∧
          index (Store.df st') = index (Store.df st) ∧
          let new := DataFrame.cells (Store.df st') column in
          length new = length old ∧
          ∀ i, old !! i = Some NA →
               (∀ v, next_valid_after old i v → new !! i = Some v) ∧
               (none_valid_after old i → new !! i = Some NA)) ∧
  (input_missing_data interpolate Scenario.frame_gaps
     (Scenario.config_for "A" "ffill") []).1 =
  Some {| index := [0; 1; 2; 3]; cols := [("A", [NA; Num 2; Num 2; Num 4])] |}.
Proof.
  intros Hwf Hin Hsec Hget old.
  split; [|split; [|reflexivity]]; intros Hs.
  - destruct (process_column_assign interpolate config column strategy
                (λ s, Ok (Series.ffill s)) (Series.ffill old) st)
      as (st' & Hrun & Hdf & _); [done|done|by rewrite Hs|done|done|].
    exists st'. split; [done|]. rewrite Hdf. split; [done|].
    rewrite cells_loc_setitem_same by (done || apply length_ffill_from).
    split; [apply length_ffill_from|].
    intros i Hi. split.
    + intros v (j & Hj & Hjv & Hv & Hbetween).
      apply (ffill_from_lookup NA old i j v); [lia|done|done| |by eapply lookup_lt_Some].
      intros k Hk. destruct (decide (k = i)) as [->|]; [done|].
      apply Hbetween. lia.
    + intros Hnone. apply ffill_from_nulls; [by eapply lookup_lt_Some|].
      intros k Hk. destruct (decide (k = i)) as [->|]; [done|].
      apply Hnone. lia.
  - destruct (process_column_assign interpolate config column strategy
                (λ s, Ok (Series.bfill s)) (Series.bfill old) st)
      as (st' & Hrun & Hdf & _); [done|done|by rewrite Hs|done|done|].
    exists st'. split; [done|]. rewrite Hdf. split; [done|].
    rewrite cells_loc_setitem_same by (done || apply length_bfill).
    split; [apply length_bfill|].
    intros i Hi. split.
    + intros v (j & Hj & Hjv & Hv & Hbetween).
      apply (bfill_lookup old i j v); [lia|done|done|].
      intros k Hk. destruct (decide (k = i)) as [->|]; [done|].
      apply Hbetween. lia.
    + intros Hnone. apply bfill_nulls; [by eapply lookup_lt_Some|].
      intros k Hk. destruct (decide (k = i)) as [->|]; [done|].
      apply Hnone. lia.
Qed.

Lemma ffill_bfill_propagate_witness :
  ∃ st',
    process_column interpolate_no_scipy (Scenario.config_for "A" "FFill") "A"
      (Store.enter Scenario.frame_gaps []) = (Ok (), st') ∧
    DataFrame.cells (Store.df st') "A" !! 2 = Some (Num 2).
Proof.
  destruct (ffill_bfill_propagate interpolate_no_scipy
              (Scenario.config_for "A" "FFill") "A" "FFill"
              (Store.enter Scenario.frame_gaps []))
    as [Hffill _].
  - split; [compute_done|]. repeat constructor.
  - compute_done.
  - compute_done.
  - reflexivity.
  - destruct (Hffill eq_refl) as (st' & Hrun & _ & _ & Hcells).
    exists st'. split; [exact Hrun|].
    apply (proj1 (Hcells 2 eq_refl) (Num 2)).
    exists 1. split; [lia|]. split; [reflexivity|]. split; [reflexivity|].
    intros k Hk. lia.
Defined.

(** C5 as stated fails on a text column: the empty text counts as missing in
    the claim, yet [ffill] leaves it where it is and carries it down into the
    null cell below, whose nearest non-missing cell above is the text [a]. *)
Lemma ffill_carries_the_empty_text :
  Py.strip "A" ∈ ConfigParser.sections (Scenario.config_for "A" "ffill") ∧
  ConfigParser.get (Scenario.config_for "A" "ffill") (Py.strip "A") "strategy"
  = Ok "ffill" ∧
  DataFrame.cells Scenario.frame_text_gap "A" = [Str "a"; Str ""; NA] ∧
  missing (Str "a") = false ∧ missing (Str "") = true ∧ missing NA = true ∧
  ∃ d st,
    input_missing_data interpolate_no_scipy Scenario.frame_text_gap
      (Scenario.config_for "A" "ffill") [] = (Some d, st) ∧
    DataFrame.cells d "A" = [Str "a"; Str ""; Str ""] ∧
    DataFrame.cells d "A" !! 1 ≠ Some (Str "a") ∧
    DataFrame.cells d "A" !! 2 ≠ Some (Str "a").
Proof.
  split; [compute_done|]. repeat (split; [reflexivity|]).
  eexists _, _. split; [reflexivity|]. split; [reflexivity|]. by split.
Qed.

(** ** The detector *)

Lemma any_missing s :
  Series.any isnull s || Series.any is_empty_text s = Series.any missing s.
Proof.
  unfold Series.any, missing. induction s as [|x s IH]; simpl; [done|].
  rewrite <- IH.
  destruct (isnull x), (is_empty_text x), (existsb isnull s),
    (existsb is_empty_text s); done.
Qed.

Lemma any_missing_elem s :
  Series.any missing s = true ↔ ∃ v, v ∈ s ∧ (v = NA ∨ v = Str "").
Proof.
  unfold Series.any. rewrite existsb_exists. split.
  - intros (v & Hin & Hv). exists v. split; [by apply list_elem_of_In|].
    destruct v as [| | |[|]]; try done; [by left | by right].
  - intros (v & Hin & [->| ->]); eexists; (split; [by apply list_elem_of_In | done]).
Qed.

Lemma find_columns_loop_spec columns acc st :
  columns ⊆ DataFrame.columns (Store.df st) →
  find_columns_loop columns acc st =
  (Ok (acc ++ filter (λ column,
                        Series.any missing (DataFrame.cells (Store.df st) column) = true)
                columns), st).
Proof.
  revert acc. induction columns as [|column columns IH]; intros acc Hsub; simpl.
  - by rewrite app_nil_r.
  - unfold mbind, M_bind, Store.current, Store.lift.
    rewrite getitem_cells by (apply Hsub; by left).
    rewrite any_missing, filter_cons.
    assert (columns ⊆ DataFrame.columns (Store.df st)) as Hsub'.
    { intros c Hc. apply Hsub. by right. }
    destruct (Series.any missing _) eqn:Hany.
    + rewrite IH by done. rewrite decide_True by done.
      by rewrite <- app_assoc.
    + rewrite IH by done. by rewrite decide_False by done.
Qed.

(** C9. On a frame with distinct column names
    [find_columns_with_missing_data] returns the names of the columns that
    hold at least one null cell or empty text, each once and in the column
    order of the frame, and leaves the store, the frame included, as it
    was. *)
Theorem find_columns_with_missing_data_exact st :
  DataFrame.well_formed (Store.df st) →
  ∃ found,
    find_columns_with_missing_data st = (Ok found, st) ∧
    found = filter (λ column,
                      Series.any missing (DataFrame.cells (Store.df st) column) = true)
              (DataFrame.columns (Store.df st)) ∧
    found `sublist_of` DataFrame.columns (Store.df st) ∧
    ∀ column,
      column ∈ found ↔
      column ∈ DataFrame.columns (Store.df st) ∧
      ∃ v, v ∈ DataFrame.cells (Store.df st) column ∧ (v = NA ∨ v = Str "").
Proof.
  intros _. eexists. split; [|split; [reflexivity|split]].
  - unfold find_columns_with_missing_data, mbind, M_bind, Store.current.
    by rewrite find_columns_loop_spec.
  - apply sublist_filter.
  - intros column. rewrite list_elem_of_filter, any_missing_elem. tauto.
Qed.

Lemma find_columns_with_missing_data_exact_witness :
  find_columns_with_missing_data
    (Store.enter
       {| index := [0; 1];
          cols := [("A", [Num 1; NA]); ("B", [Str "x"; Str "y"]);
                   ("C", [Str ""; Str "z"])] |} [])
  = (Ok ["A"; "C"],
     Store.enter
       {| index := [0; 1];
          cols := [("A", [Num 1; NA]); ("B", [Str "x"; Str "y"]);
                   ("C", [Str ""; Str "z"])] |} []).
Proof.
  destruct (find_columns_with_missing_data_exact
              (Store.enter
                 {| index := [0; 1];
                    cols := [("A", [Num 1; NA]); ("B", [Str "x"; Str "y"]);
                             ("C", [Str ""; Str "z"])] |} []))
    as (found & Hrun & -> & _).
  - split; [compute_done|]. repeat constructor.
  - exact Hrun.
Defined.

(** ** Removal of rows *)

Lemma keep_notnull_Forall (s : Series) :
  Forall (λ v, notnull v = true) (DataFrame.keep (notnull <$> s) s).
Proof.
  induction s as [|x s IH]; simpl; [done|].
  destruct (notnull x) eqn:Hx; [by constructor | done].
Qed.

(** Dropping rows column by column is filtering the frame row by row. *)
Lemma rows_from_keep column (labels : list nat) (columns : list (string * Series))
    (s : Series) :
  assoc column columns = Some s →
  length s = length labels →
  DataFrame.rows_from (DataFrame.keep (notnull <$> s) labels)
    ((λ nc : string * Series, (nc.1, DataFrame.keep (notnull <$> s) nc.2))
     <$> columns) =
  filter (λ r, notnull (DataFrame.row_cell column r) = true)
    (DataFrame.rows_from labels columns).
Proof.
  revert columns s.
  induction labels as [|l labels IH]; intros columns [|x s] Hs Hlen; try done.
  injection Hlen as Hlen.
  assert (assoc column ((λ nc : string * Series, (nc.1, tail nc.2)) <$> columns)
          = Some s) as Hs' by by rewrite assoc_fmap, Hs.
  specialize (IH _ s Hs' Hlen).
  assert (DataFrame.row_cell column
            (l, (λ nc : string * Series, (nc.1, default NA (head nc.2))) <$> columns)
          = x) as Hcell.
  { pose proof (assoc_fmap (λ c : Series, default NA (head c)) column columns)
      as Hhead.
    cbv beta in Hhead. rewrite Hs in Hhead.
    unfold DataFrame.row_cell. cbn [snd]. by rewrite Hhead. }
  cbn [DataFrame.rows_from]. rewrite filter_cons.
  rewrite fmap_cons. cbn [DataFrame.keep].
  destruct (notnull x) eqn:Hx.
  - rewrite decide_True by (by rewrite Hcell).
    cbn [DataFrame.rows_from]. f_equal.
    + f_equal. rewrite <- list_fmap_compose. apply list_fmap_ext.
      intros _ [n [|y c]] _; simpl; by rewrite ?keep_nil.
    + rewrite <- IH, <- !list_fmap_compose. f_equal. apply list_fmap_ext.
      intros _ [n [|y c]] _; simpl; by rewrite ?keep_nil.
  - rewrite decide_False by (by rewrite Hcell, Hx). rewrite <- IH. f_equal.
    rewrite <- list_fmap_compose. apply list_fmap_ext.
    intros _ [n [|y c]] _; simpl; by rewrite ?keep_nil.
Qed.

Lemma rows_dropna column df d :
  DataFrame.well_formed df →
  DataFrame.dropna column df = Ok d →
  DataFrame.rows d =
  filter (λ r, notnull (DataFrame.row_cell column r) = true) (DataFrame.rows df).
Proof.
  intros Hwf Hd. pose proof Hd as [Hin ->]%dropna_Ok.
  unfold DataFrame.rows. simpl. apply rows_from_keep.
  - unfold DataFrame.cells. apply assoc_is_Some in Hin as [s ->]. done.
  - by apply well_formed_cells.
Qed.

Lemma for_columns_split (body : string → M unit) pre column post st st' :
  for_columns body (pre ++ column :: post) st = (Completed, st') →
  ∃ st1 st2,
    for_columns body pre st = (Completed, st1) ∧
    body column st1 = (Ok (), st2) ∧
    for_columns body post st2 = (Completed, st').
Proof.
  rewrite for_columns_app.
  destruct (for_columns body pre st) as [[|c e] st1]; [|done].
  simpl. destruct (body column st1) as [[[]|e] st2] eqn:Hb; [|done].
  intros Hpost. by exists st1, st2.
Qed.

Section Around.

Variable interpolate : string → list nat → Series → result Series.
Variable config : ConfigParser.

(** The columns of the pass other than [column] leave its labelled cells
    in place, short of dropped rows, and keep whatever holds of all its
    cells. *)
Lemma for_columns_other (P : value → Prop) columns column st st' :
  column ∉ columns →
  for_columns (process_column interpolate config) columns st = (Completed, st') →
  DataFrame.labelled (Store.df st') column `sublist_of`
    DataFrame.labelled (Store.df st) column ∧
  (Forall P (DataFrame.cells (Store.df st) column) →
   Forall P (DataFrame.cells (Store.df st') column)).
Proof.
  intros Hnotin.
  apply (for_columns_invariant
           (λ s, DataFrame.labelled (Store.df s) column `sublist_of`
                   DataFrame.labelled (Store.df st) column ∧
                 (Forall P (DataFrame.cells (Store.df st) column) →
                  Forall P (DataFrame.cells (Store.df s) column)))); [|done].
  intros c s u s' Hc [Hsub Hall] Hstep.
  assert (c ≠ column) as Hne by (intros ->; done).
  split.
  - etrans; [by eapply process_column_other | done].
  - intros H. eapply process_column_other_Forall; [done|done|auto].
Qed.

End Around.

(** C3, as the code has it: the rows that go are those whose cell is the
    null marker.  A column configured with [remove] makes the pass continue
    with a new frame that holds exactly the rows whose cell in that column is
    not null, every column cut alike and the rows in their former order; the
    frame of the caller is not touched by this step.  So the frame that
    [input_missing_data] returns has no null cell in that column, and its
    rows are rows of the given frame in their former order.  With
    [{A: [1, null, 3]}] and [A: remove] the result is the two rows
    [{A: [1, 3]}]. *)
Theorem remove_drops_rows interpolate config column strategy :
  Py.strip column ∈ ConfigParser.sections config →
  ConfigParser.get config (Py.strip column) "strategy" = Ok strategy →
  Py.lower strategy = "remove" →
  (∀ st,
     DataFrame.well_formed (Store.df st) →
     column ∈ DataFrame.columns (Store.df st) →
     ∃ st',
       process_column interpolate config column st = (Ok (), st') ∧
       passed st' = passed st ∧
       DataFrame.columns (Store.df st') = DataFrame.columns (Store.df st) ∧
       DataFrame.well_formed (Store.df st') ∧
       DataFrame.rows (Store.df st') =
       filter (λ r, notnull (DataFrame.row_cell column r) = true)
         (DataFrame.rows (Store.df st))) ∧
  (∀ df records d st,
     DataFrame.well_formed df →
     column ∈ DataFrame.columns df →
     input_missing_data interpolate df config records = (Some d, st) →
     DataFrame.well_formed d ∧
     Forall (λ v, notnull v = true) (DataFrame.cells d column) ∧
     DataFrame.labelled d column `sublist_of`
       filter (λ r : nat * value, notnull r.2 = true) (DataFrame.labelled df column)) ∧
  (input_missing_data interpolate Scenario.frame_A
     (Scenario.config_for "A" "remove") []).1 =
  Some {| index := [0; 2]; cols := [("A", [Num 1; Num 3])] |}.
Proof.
  intros Hsec Hget Hlow.
  assert (∀ st,
            column ∈ DataFrame.columns (Store.df st) →
            ∃ st' d,
              process_column interpolate config column st = (Ok (), st') ∧
              passed st' = passed st ∧ Store.df st' = d ∧
              DataFrame.dropna column (Store.df st) = Ok d) as Hstep.
  { intros st Hin. rewrite process_column_eq.
    pose proof Hsec as Hsec'. apply existsb_eqb_elem in Hsec'.
    rewrite Hsec', Hget, Hlow.
    destruct (apply_strategy_cases interpolate column "remove" st)
      as [[_ ->]|[(? & _)|[Hno _]]]; [|done|].
    - unfold DataFrame.dropna at 1, mbind, result_bind.
      rewrite (getitem_cells _ _ Hin).
      eexists _, _. split; [reflexivity|]. split; [done|]. split; [done|].
      unfold DataFrame.dropna, mbind, result_bind.
      by rewrite (getitem_cells _ _ Hin).
    - exfalso. apply Hno. unfold strategies. rewrite !elem_of_cons. tauto. }
  split; [|split; [|reflexivity]].
  - intros st Hwf Hin.
    destruct (Hstep st Hin) as (st' & d & Hrun & Hpassed & <- & Hd).
    exists st'. split; [done|]. split; [done|].
    split; [by eapply columns_dropna|].
    split; [by eapply well_formed_dropna | by apply rows_dropna].
  - intros df records d st Hwf Hin [Hloop ->]%input_missing_data_Some.
    apply list_elem_of_split in Hin as (pre & post & Hcols).
    pose proof (proj1 Hwf) as Hnd. rewrite Hcols in Hnd, Hloop.
    apply NoDup_app in Hnd as (_ & Hpre & [Hpost _]%NoDup_cons).
    apply for_columns_split in Hloop as (st1 & st2 & Hloop1 & Hrun & Hloop2).
    pose proof (for_columns_shape _ _ _ _ _ Hloop1) as [Hc1 Hwf1].
    pose proof (for_columns_other interpolate config (λ _, True) _ column _ _
                  ltac:(intros Hp; apply (Hpre _ Hp); by left) Hloop1) as [Hsub1 _].
    change (Store.df (Store.enter df records)) with df in Hc1, Hwf1, Hsub1.
    specialize (Hwf1 Hwf).
    assert (column ∈ DataFrame.columns (Store.df st1)) as Hin1.
    { rewrite Hc1, Hcols. apply elem_of_app. right. by left. }
    destruct (Hstep st1 Hin1) as (st2' & d & Hrun' & _ & <- & Hd).
    rewrite Hrun in Hrun'. injection Hrun' as <-.
    pose proof (for_columns_shape _ _ _ _ _ Hloop2) as [_ Hwf2].
    pose proof (for_columns_other interpolate config (λ v, notnull v = true)
                  _ column _ _ Hpost Hloop2) as [Hsub2 Hall2].
    split; [by eauto using well_formed_dropna|].
    split.
    + apply Hall2. rewrite (cells_dropna _ _ _ _ Hd). apply keep_notnull_Forall.
    + etrans; [exact Hsub2|].
      rewrite (labelled_dropna _ _ _ _ Hd). unfold DataFrame.labelled at 1.
      rewrite keep_notnull_filter. by apply filter_sublist.
Qed.

Lemma remove_drops_rows_witness :
  ∃ st',
    process_column interpolate_no_scipy (Scenario.config_for "A" "remove") "A"
      (Store.enter Scenario.frame_A []) = (Ok (), st') ∧
    DataFrame.rows (Store.df st') =
    [(0, [("A", Num 1)]); (2, [("A", Num 3)])].
Proof.
  destruct (remove_drops_rows interpolate_no_scipy
              (Scenario.config_for "A" "remove") "A" "remove")
    as [Hstep _].
  - compute_done.
  - reflexivity.
  - reflexivity.
  - destruct (Hstep (Store.enter Scenario.frame_A [])) as (st' & Hrun & _ & _ & _ & Hrows).
    + split; [compute_done|]. repeat constructor.
    + compute_done.
    + exists st'. split; [exact Hrun|]. rewrite Hrows. reflexivity.
Defined.

(** C3 as stated fails on a text column: the empty text counts as missing in
    the claim, and [remove] keeps the row that holds it, because [dropna]
    only drops the rows whose cell is null. *)
Lemma remove_keeps_the_empty_text :
  Py.strip "A" ∈ ConfigParser.sections (Scenario.config_for "A" "remove") ∧
  ConfigParser.get (Scenario.config_for "A" "remove") (Py.strip "A") "strategy"
  = Ok "remove" ∧
  DataFrame.cells Scenario.frame_empty_text "A" !! 0 = Some (Str "") ∧
  missing (Str "") = true ∧
  ∃ d st,
    input_missing_data interpolate_no_scipy Scenario.frame_empty_text
      (Scenario.config_for "A" "remove") [] = (Some d, st) ∧
    d = Scenario.frame_empty_text ∧
    DataFrame.rows d = [(0, [("A", Str "")]); (1, [("A", Str "a")])].
Proof.
  split; [compute_done|]. split; [reflexivity|]. split; [reflexivity|].
  split; [reflexivity|].
  eexists _, _. split; [reflexivity|]. split; reflexivity.
Qed.

(** ** The filling strategies *)

Lemma fillna_notnull m s :
  notnull m = true → Forall (λ v, notnull v = true) (Series.fillna m s).
Proof.
  intros Hm. unfold Series.fillna. apply Forall_fmap, Forall_true.
  intros x. simpl. unfold notnull at 1. by destruct (isnull x) eqn:Hx; [|rewrite Hx].
Qed.

Lemma length_fillna m s : length (Series.fillna m s) = length s.
Proof. apply length_fmap. Qed.

Lemma numbers_nonempty s xs :
  Series.numbers s = Ok xs →
  (∃ v, v ∈ s ∧ notnull v = true) →
  xs ≠ [].
Proof.
  revert xs. induction s as [|x s IH]; intros xs Hxs (v & Hin & Hv).
  - by apply elem_of_nil in Hin.
  - destruct x as [|q|b|t]; simpl in Hxs; [| | |done].
    + apply IH; [done|]. exists v. split; [|done].
      apply elem_of_cons in Hin as [->|?]; done.
    + unfold mbind, result_bind in Hxs.
      destruct (Series.numbers s); [|done]. by injection Hxs as <-.
    + unfold mbind, result_bind in Hxs.
      destruct (Series.numbers s); [|done]. by injection Hxs as <-.
Qed.

Lemma numbers_finite s xs :
  Series.numbers s = Ok xs → finite s →
  Forall (λ x, ∃ q, x = Finite q) xs.
Proof.
  intros Hxs Hfin. revert xs Hxs.
  induction Hfin as [|x s Hx _ IH]; intros xs Hxs.
  - injection Hxs as <-. constructor.
  - destruct x as [|q|b|t]; simpl in Hxs; [by apply IH| |done|done].
    unfold mbind, result_bind in Hxs.
    destruct (Series.numbers s) as [ys|]; [|done]. injection Hxs as <-.
    constructor; [by eexists | by apply IH].
Qed.

Lemma number_value_notnull x : notnull (number_value (Some x)) = true.
Proof. by destruct x. Qed.

Lemma fdiv_is_Some x n : is_Some x → is_Some (fdiv x n).
Proof. intros [[q|b] ->]; by eexists. Qed.

Lemma fadd_finite x q : is_Some x → is_Some (fadd x (Some (Finite q))).
Proof. intros [[p|b] ->]; by eexists. Qed.

(** Finite numbers never add up to NaN: once the sum has overflowed to an
    infinity it stays there. *)
Lemma fsum_finite xs :
  Forall (λ x, ∃ q, x = Finite q) xs → is_Some (Series.fsum xs).
Proof.
  unfold Series.fsum. intros Hxs.
  assert (is_Some (Some (Finite 0))) as Hacc by by eexists.
  revert Hacc. generalize (Some (Finite 0)).
  induction Hxs as [|x xs [q ->] _ IH]; intros acc Hacc; [done|].
  simpl. by apply IH, fadd_finite.
Qed.

Lemma mean_value_notnull xs :
  Forall (λ x, ∃ q, x = Finite q) xs → xs ≠ [] →
  notnull (match xs with
           | [] => NA
           | _ => number_value (fdiv (Series.fsum xs) (length xs))
           end) = true.
Proof.
  intros Hxs Hne. destruct xs as [|x xs]; [done|].
  destruct (fdiv_is_Some (Series.fsum (x :: xs)) (length (x :: xs))
              (fsum_finite _ Hxs)) as [y ->].
  apply number_value_notnull.
Qed.

Lemma length_insert_by {A} (leb : A → A → bool) x l :
  length (insert_by leb x l) = S (length l).
Proof.
  induction l as [|y l IH]; simpl; [done|].
  destruct (leb x y); simpl; by rewrite ?IH.
Qed.

Lemma length_sort_by {A} (leb : A → A → bool) l :
  length (sort_by leb l) = length l.
Proof.
  induction l as [|x l IH]; simpl; [done|].
  by rewrite length_insert_by, IH.
Qed.

Lemma elem_of_insert_by {A} (leb : A → A → bool) x l y :
  y ∈ insert_by leb x l ↔ y = x ∨ y ∈ l.
Proof.
  induction l as [|z l IH]; simpl.
  - by rewrite elem_of_cons.
  - destruct (leb x z); rewrite !elem_of_cons, ?IH; tauto.
Qed.

Lemma elem_of_sort_by {A} (leb : A → A → bool) l y :
  y ∈ sort_by leb l ↔ y ∈ l.
Proof.
  induction l as [|x l IH]; simpl; [done|].
  by rewrite elem_of_insert_by, elem_of_cons, IH.
Qed.

Lemma elem_of_distinct s v : v ∈ Series.distinct s → v ∈ s.
Proof.
  induction s as [|x s IH]; simpl; [done|].
  rewrite !elem_of_cons, list_elem_of_filter. intros [->|[_ ?]]; auto.
Qed.

Lemma elem_of_mode s v : v ∈ Series.mode s → notnull v = true.
Proof.
  unfold Series.mode.
  set (ms := filter _ _).
  assert (v ∈ ms → notnull v = true) as Hms.
  { unfold ms. intros [_ Hv%elem_of_distinct]%list_elem_of_filter.
    unfold Series.valid in Hv. by apply list_elem_of_filter in Hv as [? _]. }
  destruct (_ || _); [rewrite elem_of_sort_by|]; exact Hms.
Qed.

(** On a column without infinities that holds a value, the mean is not
    NaN: it is a finite number, or an infinity when the sum overflows. *)
Lemma mean_notnull s m :
  Series.mean s = Ok m → (∃ v, v ∈ s ∧ notnull v = true) → finite s →
  notnull m = true.
Proof.
  unfold Series.mean, mbind, result_bind.
  destruct (Series.numbers s) as [xs|] eqn:Hxs; [|done].
  intros Hm Hv Hfin. injection Hm as <-.
  apply mean_value_notnull; [by eapply numbers_finite | by eapply numbers_nonempty].
Qed.

Lemma middle_notnull (sorted : list number) :
  Forall (λ x, ∃ q, x = Finite q) sorted →
  0 < length sorted →
  notnull (match sorted !! (length sorted / 2) with
           | None => NA
           | Some hi =>
               if Nat.even (length sorted) then
                 match sorted !! (length sorted / 2 - 1) with
                 | Some lo => number_value (fdiv (fadd (Some lo) (Some hi)) 2)
                 | None => NA
                 end
               else number_value (Some hi)
           end) = true.
Proof.
  intros Hsorted Hpos.
  pose proof (Nat.div_lt (length sorted) 2 Hpos ltac:(lia)) as Hhalf.
  rewrite Forall_forall in Hsorted.
  destruct (sorted !! (length sorted / 2)) as [hi|] eqn:Hhi.
  - destruct (Hsorted hi) as [q ->]; [by eapply list_elem_of_lookup_2|].
    destruct (Nat.even (length sorted)); [|done].
    destruct (sorted !! (length sorted / 2 - 1)) as [lo|] eqn:Hlo.
    + destruct (Hsorted lo) as [p ->]; [by eapply list_elem_of_lookup_2|].
      destruct (fdiv_is_Some (fadd (Some (Finite p)) (Some (Finite q))) 2)
        as [y ->]; [by eexists|].
      apply number_value_notnull.
    + apply lookup_ge_None in Hlo. lia.
  - apply lookup_ge_None in Hhi. lia.
Qed.

(** And so is the median. *)
Lemma median_notnull s m :
  Series.median s = Ok m → (∃ v, v ∈ s ∧ notnull v = true) → finite s →
  notnull m = true.
Proof.
  unfold Series.median, mbind, result_bind.
  destruct (Series.numbers s) as [xs|] eqn:Hxs; [|done].
  intros Hm Hv Hfin. injection Hm as <-.
  pose proof (numbers_nonempty _ _ Hxs Hv) as Hne.
  pose proof (numbers_finite _ _ Hxs Hfin) as Hall.
  apply middle_notnull.
  - rewrite Forall_forall in Hall |- *. intros x Hx.
    apply Hall. by apply elem_of_sort_by in Hx.
  - rewrite length_sort_by. destruct xs; [done | simpl; lia].
Qed.

(** So a column without infinities that holds a value is filled with a
    value. *)
Lemma finite_column_fills_with_a_value strategy s :
  (∃ v, v ∈ s ∧ notnull v = true) → finite s → fills_with_a_value strategy s.
Proof.
  intros Hv Hfin. split; intros _ m Hm.
  - by eapply mean_notnull.
  - by eapply median_notnull.
Qed.

Lemma process_column_assign_inv interpolate config column s f st st' :
  Py.strip column ∈ ConfigParser.sections config →
  ConfigParser.get config (Py.strip column) "strategy" = Ok s →
  apply_strategy interpolate column (Py.lower s) st = transform_column column f st →
  column ∈ DataFrame.columns (Store.df st) →
  process_column interpolate config column st = (Ok (), st') →
  ∃ series,
    f (DataFrame.cells (Store.df st) column) = Ok series ∧
    Store.df st' = DataFrame.loc_setitem column series (Store.df st).
Proof.
  intros Hsec Hget Happly Hin.
  rewrite process_column_eq.
  apply existsb_eqb_elem in Hsec. rewrite Hsec, Hget, Happly.
  rewrite transform_column_eq, (getitem_cells _ _ Hin).
  destruct (f _) as [series|]; [|done].
  destruct (Store.update _ st) as [[[]|e] st1] eqn:Hu; [|done].
  apply df_update in Hu as [Hdf _].
  intros [= <-]. by exists series.
Qed.

(** The value that [mode] and [zero] fill with is never the null marker when
    the column holds a value; neither is the one of [mean] and [median] when
    it is not NaN. *)
Lemma process_column_fill interpolate config column strategy st st' :
  Py.strip column ∈ ConfigParser.sections config →
  ConfigParser.get config (Py.strip column) "strategy" = Ok strategy →
  Py.lower strategy ∈ ["mean"; "median"; "mode"; "zero"] →
  column ∈ DataFrame.columns (Store.df st) →
  (∃ v, v ∈ DataFrame.cells (Store.df st) column ∧ notnull v = true) →
  fills_with_a_value (Py.lower strategy) (DataFrame.cells (Store.df st) column) →
  process_column interpolate config column st = (Ok (), st') →
  ∃ m, notnull m = true ∧
       Store.df st' =
       DataFrame.loc_setitem column
         (Series.fillna m (DataFrame.cells (Store.df st) column)) (Store.df st).
Proof.
  intros Hsec Hget Hlow Hin Hv [Hmean Hmedian] Hrun.
  rewrite !elem_of_cons, elem_of_nil in Hlow.
  destruct Hlow as [Hlow|[Hlow|[Hlow|[Hlow|[]]]]].
  - destruct (process_column_assign_inv interpolate config column strategy
                (λ s, m ← Series.mean s; Ok (Series.fillna m s)) st st')
      as (series & Hf & Hdf); [done|done|by rewrite Hlow|done|done|].
    unfold mbind, result_bind in Hf.
    destruct (Series.mean _) as [m|] eqn:Hm; [|done]. injection Hf as <-.
    exists m. split; [by apply Hmean | done].
  - destruct (process_column_assign_inv interpolate config column strategy
                (λ s, m ← Series.median s; Ok (Series.fillna m s)) st st')
      as (series & Hf & Hdf); [done|done|by rewrite Hlow|done|done|].
    unfold mbind, result_bind in Hf.
    destruct (Series.median _) as [m|] eqn:Hm; [|done]. injection Hf as <-.
    exists m. split; [by apply Hmedian | done].
  - destruct (process_column_assign_inv interpolate config column strategy
                (λ s, mode_value ← Series.getitem0 (Series.mode s);
                      Ok (Series.fillna mode_value s)) st st')
      as (series & Hf & Hdf); [done|done|by rewrite Hlow|done|done|].
    unfold mbind, result_bind in Hf.
    destruct (Series.mode _) as [|m ms] eqn:Hm; [done|]. injection Hf as <-.
    exists m. split; [|done].
    apply (elem_of_mode (DataFrame.cells (Store.df st) column)).
    rewrite Hm. by left.
  - destruct (process_column_assign_inv interpolate config column strategy
                (λ s, Ok (Series.fillna (Num 0) s)) st st')
      as (series & Hf & Hdf); [done|done|by rewrite Hlow|done|done|].
    injection Hf as <-. by exists (Num 0).
Qed.

(** C2, as the code has it.  Take a well-formed frame and a column
    configured with [mean], [median], [mode] or [zero] that still holds a
    non-null cell when its turn in the pass comes (an earlier [remove] may
    have dropped rows) and, for [mean] and [median], whose mean or median is
    then not NaN (NaN is what opposite infinities give).  If
    [input_missing_data] returns a frame, that column holds no null cell in
    it.  Empty texts are not null and are not filled. *)
Theorem fill_strategies_leave_no_null
    interpolate df config records pre column post strategy st1 d st :
  DataFrame.well_formed df →
  DataFrame.columns df = pre ++ column :: post →
  Py.strip column ∈ ConfigParser.sections config →
  ConfigParser.get config (Py.strip column) "strategy" = Ok strategy →
  Py.lower strategy ∈ ["mean"; "median"; "mode"; "zero"] →
  for_columns (process_column interpolate config) pre (Store.enter df records)
  = (Completed, st1) →
  (∃ v, v ∈ DataFrame.cells (Store.df st1) column ∧ notnull v = true) →
  fills_with_a_value (Py.lower strategy) (DataFrame.cells (Store.df st1) column) →
  input_missing_data interpolate df config records = (Some d, st) →
  Forall (λ v, notnull v = true) (DataFrame.cells d column).
Proof.
  intros Hwf Hcols Hsec Hget Hlow Hloop1 Hv Hfill [Hloop ->]%input_missing_data_Some.
  pose proof (proj1 Hwf) as Hnd. rewrite Hcols in Hnd, Hloop.
  apply NoDup_app in Hnd as (_ & _ & [Hpost _]%NoDup_cons).
  apply for_columns_split in Hloop as (st1' & st2 & Hloop1' & Hrun & Hloop2).
  rewrite Hloop1 in Hloop1'. injection Hloop1' as <-.
  pose proof (for_columns_shape _ _ _ _ _ Hloop1) as [Hc1 Hwf1].
  change (Store.df (Store.enter df records)) with df in Hc1, Hwf1.
  specialize (Hwf1 Hwf).
  assert (column ∈ DataFrame.columns (Store.df st1)) as Hin1.
  { rewrite Hc1, Hcols. apply elem_of_app. right. by left. }
  destruct (process_column_fill interpolate config column strategy st1 st2)
    as (m & Hm & Hdf); [done..|].
  pose proof (for_columns_other interpolate config (λ v, notnull v = true)
                _ column _ _ Hpost Hloop2) as [_ Hall].
  apply Hall. rewrite Hdf.
  rewrite cells_loc_setitem_same by (done || apply length_fillna).
  by apply fillna_notnull.
Qed.

Lemma fill_strategies_leave_no_null_witness :
  ∃ d st,
    input_missing_data interpolate_no_scipy Scenario.frame_text
      (Scenario.config_for "A" "Median") [] = (Some d, st) ∧
    Forall (λ v, notnull v = true) (DataFrame.cells d "A").
Proof.
  eexists _, _. split; [reflexivity|].
  eapply (fill_strategies_leave_no_null interpolate_no_scipy Scenario.frame_text
            (Scenario.config_for "A" "Median") [] [] "A" ["B"] "Median").
  - split; [compute_done|]. repeat constructor.
  - reflexivity.
  - compute_done.
  - reflexivity.
  - compute_done.
  - reflexivity.
  - exists (Num 1). split; [by left | reflexivity].
  - split; [by vm_compute | by intros _ m [= <-]].
  - reflexivity.
Defined.

(** On a column that holds both infinities the mean is NaN and [mean] fills
    nothing: the null cell is still there in the frame that the pass
    returns. *)
Lemma opposite_infinities_fill_nothing interpolate :
  (input_missing_data interpolate
     {| index := [0; 1; 2]; cols := [("A", [Inf true; Inf false; NA])] |}
     (Scenario.config_for "A" "mean") []).1 =
  Some {| index := [0; 1; 2]; cols := [("A", [Inf true; Inf false; NA])] |}.
Proof. reflexivity. Qed.

(** C2 as stated fails on a text column: the empty text counts as missing in
    the claim, the column also holds the text [a], and after [zero] the empty
    text is still there, because [fillna] only replaces null cells. *)
Lemma empty_text_is_not_filled :
  Py.strip "A" ∈ ConfigParser.sections (Scenario.config_for "A" "zero") ∧
  ConfigParser.get (Scenario.config_for "A" "zero") (Py.strip "A") "strategy"
  = Ok "zero" ∧
  (∃ v, v ∈ DataFrame.cells Scenario.frame_empty_text "A" ∧ missing v = false) ∧
  ∃ d st,
    input_missing_data interpolate_no_scipy Scenario.frame_empty_text
      (Scenario.config_for "A" "zero") [] = (Some d, st) ∧
    DataFrame.cells d "A" = [Str ""; Str "a"] ∧
    ∃ v, v ∈ DataFrame.cells d "A" ∧ missing v = true.
Proof.
  split; [compute_done|]. split; [reflexivity|]. split.
  - exists (Str "a"). split; [right; by left | reflexivity].
  - eexists _, _. split; [reflexivity|]. split; [reflexivity|].
    exists (Str ""). split; [by left | reflexivity].
Qed.

(** ** Failures inside the pass *)

Lemma mode_all_null s : Forall (λ v, v = NA) s → Series.mode s = [].
Proof.
  intros Hall. unfold Series.mode.
  replace (Series.valid s) with (@nil value); [done|].
  unfold Series.valid. induction Hall as [|x s -> _ IH]; [done|].
  by rewrite filter_cons.
Qed.

Lemma process_column_mode_empty interpolate config column strategy st :
  Py.strip column ∈ ConfigParser.sections config →
  ConfigParser.get config (Py.strip column) "strategy" = Ok strategy →
  Py.lower strategy = "mode" →
  column ∈ DataFrame.columns (Store.df st) →
  Forall (λ v, v = NA) (DataFrame.cells (Store.df st) column) →
  process_column interpolate config column st = (Raise (KeyError "0"), st).
Proof.
  intros Hsec Hget Hlow Hin Hall.
  rewrite process_column_eq.
  apply existsb_eqb_elem in Hsec. rewrite Hsec, Hget, Hlow.
  change (apply_strategy interpolate column "mode" st)
    with (transform_column column
            (λ s, mode_value ← Series.getitem0 (Series.mode s);
                  Ok (Series.fillna mode_value s)) st).
  rewrite transform_column_eq, (getitem_cells _ _ Hin).
  by rewrite (mode_all_null _ Hall).
Qed.

Lemma process_column_invalid interpolate config column s st :
  Py.strip column ∈ ConfigParser.sections config →
  ConfigParser.get config (Py.strip column) "strategy" = Ok s →
  Py.lower s ∉ strategies →
  process_column interpolate config column st =
  (Raise (AttributeError ("invalid strategy (" +:+ Py.lower s +:+ ")")), st).
Proof.
  intros Hsec Hget Hno.
  rewrite process_column_eq.
  apply existsb_eqb_elem in Hsec. rewrite Hsec, Hget.
  destruct (apply_strategy_cases interpolate column (Py.lower s) st)
    as [[Hr _]|[(_ & Hin & _)|[_ ->]]]; [|done|done].
  exfalso. apply Hno. rewrite Hr. unfold strategies. rewrite !elem_of_cons. tauto.
Qed.

(** A pass that reaches a column whose body raises returns [None] and leaves
    the store of that moment, with one more record in the log. *)
Lemma input_missing_data_raise interpolate df config records pre column post st1 e :
  DataFrame.columns df = pre ++ column :: post →
  for_columns (process_column interpolate config) pre (Store.enter df records)
  = (Completed, st1) →
  process_column interpolate config column st1 = (Raise e, st1) →
  input_missing_data interpolate df config records =
  (None,
   (Store.logging ERROR
      ("inputting missing data for " +:+ column +:+ ": " +:+ exn_str e) st1).2).
Proof.
  intros Hcols Hpre Hrun. unfold input_missing_data.
  rewrite Hcols, for_columns_app, Hpre. simpl. by rewrite Hrun.
Qed.

(** C10, as the code has it: the column holds nothing but the null marker.
    On a well-formed frame, a column configured with [mode] whose cells
    are all null makes [input_missing_data] return [None]: the lookup of the
    first mode raises and the handler swallows it.  When the columns before
    it went through, the store is left as they made it, with the error record
    added: with [{A: [1, null, 3], B: [null, null, null]}], [A: mean] and
    [B: mode], the call returns [None] and the caller's frame has column [A]
    filled. *)
Theorem mode_without_values_returns_none
    interpolate df config records column strategy :
  DataFrame.well_formed df →
  column ∈ DataFrame.columns df →
  Py.strip column ∈ ConfigParser.sections config →
  ConfigParser.get config (Py.strip column) "strategy" = Ok strategy →
  Py.lower strategy = "mode" →
  Forall (λ v, v = NA) (DataFrame.cells df column) →
  (input_missing_data interpolate df config records).1 = None ∧
  (∀ pre post st1,
     DataFrame.columns df = pre ++ column :: post →
     for_columns (process_column interpolate config) pre (Store.enter df records)
     = (Completed, st1) →
     input_missing_data interpolate df config records =
     (None,
      (Store.logging ERROR ("inputting missing data for " +:+ column +:+ ": 0")
         st1).2)) ∧
  input_missing_data interpolate Scenario.frame_blank
    (Scenario.config_two "A" "mean" "B" "mode") [] =
  (None,
   {| passed := {| index := [0; 1; 2];
                   cols := [("A", [Num 1; Num 2; Num 3]); ("B", [NA; NA; NA])] |};
      rebound := None;
      log := [(INFO, "A: cleaned using strategy mean");
              (ERROR, "inputting missing data for B: 0")] |}).
Proof.
  intros Hwf Hin Hsec Hget Hlow Hall.
  assert (∀ pre post st1,
            DataFrame.columns df = pre ++ column :: post →
            for_columns (process_column interpolate config) pre
              (Store.enter df records) = (Completed, st1) →
            process_column interpolate config column st1
            = (Raise (KeyError "0"), st1)) as Hstop.
  { intros pre post st1 Hcols Hpre.
    pose proof (proj1 Hwf) as Hnd. rewrite Hcols in Hnd.
    apply NoDup_app in Hnd as (_ & Hnotin & _).
    pose proof (for_columns_shape _ _ _ _ _ Hpre) as [Hc1 _].
    pose proof (for_columns_other interpolate config (λ v, v = NA) _ column _ _
                  ltac:(intros Hp; apply (Hnotin _ Hp); by left) Hpre) as [_ Hall1].
    change (Store.df (Store.enter df records)) with df in Hc1, Hall1.
    apply (process_column_mode_empty _ _ _ strategy); [done|done|done| |auto].
    rewrite Hc1, Hcols. apply elem_of_app. right. by left. }
  split; [|split; [|reflexivity]].
  - unfold input_missing_data.
    destruct (for_columns _ _ _) as [[|c e] st] eqn:Hloop; [|done].
    exfalso.
    apply list_elem_of_split in Hin as (pre & post & Hcols).
    rewrite Hcols in Hloop.
    apply for_columns_split in Hloop as (st1 & st2 & Hpre & Hrun & _).
    by rewrite (Hstop pre post st1 Hcols Hpre) in Hrun.
  - intros pre post st1 Hcols Hpre.
    by apply (input_missing_data_raise _ _ _ _ pre column post st1 (KeyError "0")),
         (Hstop pre post).
Qed.

Lemma mode_without_values_returns_none_witness :
  (input_missing_data interpolate_no_scipy Scenario.frame_blank
     (Scenario.config_two "A" "mean" "B" "Mode") []).1 = None.
Proof.
  apply (mode_without_values_returns_none interpolate_no_scipy
           Scenario.frame_blank (Scenario.config_two "A" "mean" "B" "Mode") []
           "B" "Mode").
  - split; [compute_done|]. repeat constructor.
  - compute_done.
  - compute_done.
  - reflexivity.
  - reflexivity.
  - repeat constructor.
Defined.

(** C10 as stated fails on a text column: the empty text counts as missing
    in the claim, so the column holds no non-missing value; but the empty
    text is a value for [mode], which hands it out, and the call returns the
    frame with the null cell filled by it. *)
Lemma mode_of_empty_text_returns_a_frame :
  Py.strip "A" ∈ ConfigParser.sections (Scenario.config_for "A" "mode") ∧
  ConfigParser.get (Scenario.config_for "A" "mode") (Py.strip "A") "strategy"
  = Ok "mode" ∧
  Forall (λ v, missing v = true) (DataFrame.cells Scenario.frame_no_text "A") ∧
  Series.mode (DataFrame.cells Scenario.frame_no_text "A") = [Str ""] ∧
  ∃ d st,
    input_missing_data interpolate_no_scipy Scenario.frame_no_text
      (Scenario.config_for "A" "mode") [] = (Some d, st) ∧
    d = {| index := [0; 1]; cols := [("A", [Str ""; Str ""])] |}.
Proof.
  split; [compute_done|]. split; [reflexivity|].
  split; [by repeat constructor|]. split; [reflexivity|].
  eexists _, _. split; reflexivity.
Qed.

(** ** Trimming *)

Lemma lstrip_chars_snoc l c :
  Py.isspace c = false →
  Py.lstrip_chars (l ++ [c]) = Py.lstrip_chars l ++ [c].
Proof.
  intros Hc. induction l as [|x l IH]; simpl; [by rewrite Hc|].
  by destruct (Py.isspace x).
Qed.

Lemma lstrip_chars_head l :
  Py.lstrip_chars l = [] ∨
  ∃ c t, Py.lstrip_chars l = c :: t ∧ Py.isspace c = false.
Proof.
  induction l as [|x l IH]; simpl; [by left|].
  destruct (Py.isspace x) eqn:Hx; [done|]. right. by exists x, l.
Qed.

Lemma lstrip_chars_idempotent l :
  Py.lstrip_chars (Py.lstrip_chars l) = Py.lstrip_chars l.
Proof.
  destruct (lstrip_chars_head l) as [->|(c & t & -> & Hc)]; [done|].
  simpl. by rewrite Hc.
Qed.

Lemma strip_chars_idempotent l :
  Py.strip_chars (Py.strip_chars l) = Py.strip_chars l.
Proof.
  unfold Py.strip_chars.
  destruct (lstrip_chars_head l) as [->|(c & t & -> & Hc)]; [done|].
  rewrite reverse_cons, (lstrip_chars_snoc _ _ Hc), reverse_app. simpl.
  rewrite Hc.
  rewrite reverse_cons, reverse_involutive, (lstrip_chars_snoc _ _ Hc).
  by rewrite lstrip_chars_idempotent, reverse_app.
Qed.

Lemma strip_idempotent s : Py.strip (Py.strip s) = Py.strip s.
Proof.
  unfold Py.strip.
  by rewrite list_ascii_of_string_of_list_ascii, strip_chars_idempotent.
Qed.

Lemma columns_strip_columns df :
  DataFrame.columns (DataFrame.strip_columns df) = Py.strip <$> DataFrame.columns df.
Proof.
  unfold DataFrame.columns, DataFrame.strip_columns. simpl.
  by rewrite <- !list_fmap_compose.
Qed.

(** ** An unknown strategy *)

Lemma input_missing_data_invalid interpolate df config records column s :
  column ∈ DataFrame.columns df →
  Py.strip column ∈ ConfigParser.sections config →
  ConfigParser.get config (Py.strip column) "strategy" = Ok s →
  Py.lower s ∉ strategies →
  (input_missing_data interpolate df config records).1 = None.
Proof.
  intros Hin Hsec Hget Hno. unfold input_missing_data.
  destruct (for_columns _ _ _) as [[|c e] st] eqn:Hloop; [|done].
  exfalso.
  apply list_elem_of_split in Hin as (pre & post & Hcols).
  rewrite Hcols in Hloop.
  apply for_columns_split in Hloop as (st1 & st2 & _ & Hrun & _).
  by rewrite (process_column_invalid _ _ _ s) in Hrun.
Qed.

(** C1, as the code has it.  When the configuration read by the script gives
    a column of the data a strategy that, lower-cased, is none of the twelve
    known ones, the script writes no output file and prints its failure
    message.  When the columns before that one went through, the log names
    the column (trimmed, as the script renames it) and the lower-cased
    identifier, in the record that the handler of [input_missing_data]
    writes. *)
Theorem invalid_strategy_aborts interpolate csv fs writable config raw s :
  fs "parameter_config.ini" = ConfigParser.Parsed config →
  raw ∈ DataFrame.columns csv →
  Py.strip raw ∈ ConfigParser.sections config →
  ConfigParser.get config (Py.strip raw) "strategy" = Ok s →
  Py.lower s ∉ strategies →
  cleaned_csv (main interpolate csv fs writable) = None ∧
  printed (main interpolate csv fs writable) = ["etl task failed!!!"] ∧
  (∀ pre post st1,
     DataFrame.columns (DataFrame.strip_columns csv) = pre ++ Py.strip raw :: post →
     for_columns (process_column interpolate config) pre
       (Store.enter (DataFrame.strip_columns csv)
          [(INFO, "Read config file parameter_config.ini successfully.")])
     = (Completed, st1) →
     logged (main interpolate csv fs writable) =
     log st1 ++
     [(ERROR, "inputting missing data for " +:+ Py.strip raw +:+
              ": invalid strategy (" +:+ Py.lower s +:+ ")");
      (ERROR, "Data Cleaning process failed")]).
Proof.
  intros Hfs Hraw Hsec Hget Hno.
  assert (Py.strip raw ∈ DataFrame.columns (DataFrame.strip_columns csv)) as Hin.
  { rewrite columns_strip_columns. by apply list_elem_of_fmap_2. }
  pose proof (input_missing_data_invalid interpolate
                (DataFrame.strip_columns csv) config
                [(INFO, "Read config file parameter_config.ini successfully.")]
                (Py.strip raw) s Hin) as Hnone.
  rewrite strip_idempotent in Hnone. specialize (Hnone Hsec Hget Hno).
  unfold main, read_config, ConfigParser.read. rewrite Hfs. simpl.
  destruct (input_missing_data _ _ _ _) as [df_cleaned st] eqn:Hcall.
  simpl in Hnone. subst df_cleaned. simpl.
  split; [done|]. split; [done|].
  intros pre post st1 Hcols Hpre.
  rewrite (input_missing_data_raise _ _ _ _ pre (Py.strip raw) post st1
             (AttributeError ("invalid strategy (" +:+ Py.lower s +:+ ")")))
    in Hcall; [| done | done |].
  - injection Hcall as <-. simpl. by rewrite <- app_assoc.
  - apply process_column_invalid; by rewrite ?strip_idempotent.
Qed.

Lemma invalid_strategy_aborts_witness :
  cleaned_csv (main interpolate_no_scipy Scenario.frame_AB
                 (λ _, ConfigParser.Parsed (Scenario.config_for "A" "Bogus")) true)
  = None.
Proof.
  apply (invalid_strategy_aborts interpolate_no_scipy Scenario.frame_AB
           (λ _, ConfigParser.Parsed (Scenario.config_for "A" "Bogus")) true
           (Scenario.config_for "A" "Bogus") "A" "Bogus").
  - reflexivity.
  - compute_done.
  - compute_done.
  - reflexivity.
  - compute_done.
Defined.

(** C1 as stated fails: column [A], configured with [mode], holds no value
    and stops the pass before column [B] and its unknown strategy [bogus] are
    looked at.  No output is written, but no record of the log names [B] or
    [bogus]. *)
Lemma earlier_failure_hides_invalid_strategy :
  "B" ∈ DataFrame.columns Scenario.frame_blank_first ∧
  ConfigParser.get (Scenario.config_two "A" "mode" "B" "bogus") (Py.strip "B")
    "strategy" = Ok "bogus" ∧
  (Py.lower "bogus" ∉ strategies) ∧
  logged (main interpolate_no_scipy Scenario.frame_blank_first
            (λ _, ConfigParser.Parsed (Scenario.config_two "A" "mode" "B" "bogus"))
            true) =
  [(INFO, "Read config file parameter_config.ini successfully.");
   (ERROR, "inputting missing data for A: 0");
   (ERROR, "Data Cleaning process failed")] ∧
  Forall (λ r : log_record,
            Py.contains r.2 "bogus" = false ∧ Py.contains r.2 "B" = false)
    (logged (main interpolate_no_scipy Scenario.frame_blank_first
               (λ _, ConfigParser.Parsed
                       (Scenario.config_two "A" "mode" "B" "bogus"))
               true)).
Proof.
  split; [compute_done|]. split; [reflexivity|]. split; [compute_done|].
  split; [reflexivity|]. vm_compute. repeat constructor.
Qed.

(** ** Reading the configuration *)

Lemma for_columns_skip interpolate config columns st :
  ConfigParser.sections config = [] →
  for_columns (process_column interpolate config) columns st = (Completed, st).
Proof.
  intros Hnone. induction columns as [|column columns IH]; simpl; [done|].
  rewrite process_column_skip; [done|]. rewrite Hnone. apply not_elem_of_nil.
Qed.

(** C8, where the code departs from it.  A file that cannot be opened does
    not make [read_config] fail: [ConfigParser.read] skips it, the function
    logs a success and returns the empty configuration, and the script then
    writes the data back unchanged.  Only a malformed file makes it log the
    error and raise. *)
Theorem read_config_skips_unopenable_file interpolate fs config_file records csv :
  (fs config_file = ConfigParser.Unopenable →
   read_config fs config_file records =
   (Ok ConfigParser.empty,
    records ++ [(INFO, "Read config file " +:+ config_file +:+ " successfully.")])) ∧
  (fs config_file = ConfigParser.Malformed →
   read_config fs config_file records =
   (Raise (ParsingError config_file),
    records ++ [(ERROR, "Error reading config file " +:+ config_file +:+ ": "
                        +:+ exn_str (ParsingError config_file))])) ∧
  (fs "parameter_config.ini" = ConfigParser.Unopenable →
   cleaned_csv (main interpolate csv fs true) =
   Some (cols (DataFrame.strip_columns csv))).
Proof.
  split; [|split].
  - intros Hfs. unfold read_config, ConfigParser.read. by rewrite Hfs.
  - intros Hfs. unfold read_config, ConfigParser.read. by rewrite Hfs.
  - intros Hfs. unfold main, read_config, ConfigParser.read. rewrite Hfs.
    unfold input_missing_data. by rewrite for_columns_skip.
Qed.

Lemma read_config_skips_unopenable_file_witness :
  read_config (λ _, ConfigParser.Unopenable) "parameter_config.ini" [] =
  (Ok ConfigParser.empty,
   [(INFO, "Read config file parameter_config.ini successfully.")]).
Proof.
  apply (proj1 (read_config_skips_unopenable_file interpolate_no_scipy
                  (λ _, ConfigParser.Unopenable) "parameter_config.ini" []
                  Scenario.frame_A)).
  reflexivity.
Defined.

(** * Further properties of the pass *)

(** ** The store after one column *)

Section Store_after.

Variable interpolate : string → list nat → Series → result Series.
Variable config : ConfigParser.

(** The store after a column that went through: as before for a column
    outside the configuration; with [df] rebound for a removal; with the
    column assigned in the object [df] names otherwise. *)
Lemma process_column_store column st u st' :
  process_column interpolate config column st = (Ok u, st') →
  st' = st ∨
  ∃ s,
    Py.strip column ∈ ConfigParser.sections config ∧
    ConfigParser.get config (Py.strip column) "strategy" = Ok s ∧
    ((Py.lower s = "remove" ∧
      ∃ d, DataFrame.dropna column (Store.df st) = Ok d ∧
           st' = {| passed := passed st; rebound := Some d;
                    log := log st ++ [(INFO, column +:+ ": cleaned using strategy "
                                             +:+ Py.lower s)] |}) ∨
     (Py.lower s ≠ "remove" ∧
      column ∈ DataFrame.columns (Store.df st) ∧
      ∃ series,
        st' = {| passed := match rebound st with
                           | Some _ => passed st
                           | None => DataFrame.loc_setitem column series (passed st)
                           end;
                 rebound := DataFrame.loc_setitem column series <$> rebound st;
                 log := log st ++ [(INFO, column +:+ ": cleaned using strategy "
                                          +:+ Py.lower s)] |})).
Proof.
  destruct u. rewrite process_column_eq.
  destruct (existsb _ _) eqn:Hsec; [|intros [= <-]; by left].
  apply existsb_eqb_elem in Hsec.
  destruct (ConfigParser.get _ _ _) as [s|] eqn:Hget; [|done].
  intros Hrun. right. exists s. split; [done|]. split; [done|].
  destruct (apply_strategy_cases interpolate column (Py.lower s) st)
    as [[Hr Ha]|[(Hr & _ & f & Ha)|[_ Ha]]]; rewrite Ha in Hrun; [| |done].
  - left. split; [done|].
    destruct (DataFrame.dropna _ _) as [d|]; [|done].
    exists d. split; [done|]. unfold Store.rebind, Store.logging in Hrun.
    by injection Hrun as <-.
  - right. split; [done|].
    rewrite transform_column_eq in Hrun.
    destruct (DataFrame.getitem _ _) as [cells|] eqn:Hcells; [|done].
    apply getitem_Ok in Hcells as [Hin _]. split; [done|].
    destruct (f cells) as [series|]; [|done]. exists series.
    unfold Store.update, Store.logging in Hrun.
    destruct (rebound st); by injection Hrun as <-.
Qed.

(** The loop stops with the store that the columns before the failing one
    made: the failing column adds nothing. *)
Lemma for_columns_any (I : store → Prop) columns st exit st' :
  (∀ column s u s',
     column ∈ columns → I s →
     process_column interpolate config column s = (Ok u, s') → I s') →
  I st →
  for_columns (process_column interpolate config) columns st = (exit, st') →
  I st'.
Proof.
  intros Hstep Hst Hloop. destruct exit as [|column e].
  - by eapply for_columns_invariant.
  - apply for_columns_raised in Hloop as (pre & post & st1 & -> & Hpre & Hrun).
    apply process_column_raise in Hrun as ->.
    eapply for_columns_invariant; [|done|done].
    intros c s u s' Hc. apply Hstep. apply elem_of_app. by left.
Qed.

End Store_after.

(** ** What the pass logs *)

Lemma for_columns_log interpolate config columns st st' :
  for_columns (process_column interpolate config) columns st = (Completed, st') →
  log st' = log st ++ concat (info_record config <$> columns).
Proof.
  revert st. induction columns as [|column columns IH]; intros st; simpl.
  - intros [= <-]. by rewrite app_nil_r.
  - destruct (process_column _ _ _ _) as [[u|e] st1] eqn:Hrun; [|done].
    intros ->%IH. unfold info_record.
    apply process_column_ok in Hrun as [[Hsec ->]|(s & Hsec & Hget & -> & _)].
    + destruct (existsb _ _) eqn:He; [by apply existsb_eqb_elem in He | done].
    + apply existsb_eqb_elem in Hsec. rewrite Hsec, Hget.
      by rewrite <- app_assoc.
Qed.

(** X1. A pass that returns a frame has logged, after the records it found,
    one INFO record for every column of the frame that the configuration
    names, in column order, and nothing else. *)
Theorem success_logs_each_cleaned_column interpolate df config records d st :
  input_missing_data interpolate df config records = (Some d, st) →
  log st = records ++ concat (info_record config <$> DataFrame.columns df).
Proof.
  intros [Hloop _]%input_missing_data_Some.
  by apply for_columns_log in Hloop.
Qed.

Lemma success_logs_each_cleaned_column_witness :
  ∃ d st,
    input_missing_data interpolate_no_scipy Scenario.frame_AB
      (Scenario.config_two "A" "Mean" "B" "bfill") [] = (Some d, st) ∧
    log st = [(INFO, "A: cleaned using strategy mean");
              (INFO, "B: cleaned using strategy bfill")].
Proof.
  eexists _, _. split; [reflexivity|].
  apply (success_logs_each_cleaned_column interpolate_no_scipy Scenario.frame_AB
           (Scenario.config_two "A" "Mean" "B" "bfill") [] _ _ eq_refl).
Defined.

(** X2. A pass that returns [None] stopped at one column of the frame: the
    columns before it went through, its own body raised, and the store is the
    one those columns made with a single ERROR record added, which names the
    column that raised and the exception. *)
Theorem failure_stops_at_the_raising_column interpolate df config records st :
  input_missing_data interpolate df config records = (None, st) →
  ∃ pre column post st1 e,
    DataFrame.columns df = pre ++ column :: post ∧
    for_columns (process_column interpolate config) pre (Store.enter df records)
    = (Completed, st1) ∧
    process_column interpolate config column st1 = (Raise e, st1) ∧
    passed st = passed st1 ∧
    log st = records ++ concat (info_record config <$> pre) ++
             [(ERROR, "inputting missing data for " +:+ column +:+ ": "
                      +:+ exn_str e)].
Proof.
  unfold input_missing_data.
  destruct (for_columns _ _ _) as [[|column e] st0] eqn:Hloop; [done|].
  intros [= <-].
  apply for_columns_raised in Hloop as (pre & post & st1 & Hcols & Hpre & Hrun).
  pose proof (process_column_raise _ _ _ _ _ _ Hrun) as ->.
  exists pre, column, post, st1, e.
  split; [done|]. split; [done|]. split; [done|]. split; [done|].
  simpl. rewrite (for_columns_log _ _ _ _ _ Hpre). simpl.
  by rewrite <- app_assoc.
Qed.

Lemma failure_stops_at_the_raising_column_witness :
  ∃ pre column post st1 e,
    DataFrame.columns Scenario.frame_blank = pre ++ column :: post ∧
    for_columns
      (process_column interpolate_no_scipy
         (Scenario.config_two "A" "mean" "B" "mode"))
      pre (Store.enter Scenario.frame_blank []) = (Completed, st1) ∧
    process_column interpolate_no_scipy
      (Scenario.config_two "A" "mean" "B" "mode") column st1 = (Raise e, st1) ∧
    passed (input_missing_data interpolate_no_scipy Scenario.frame_blank
              (Scenario.config_two "A" "mean" "B" "mode") []).2 = passed st1 ∧
    log (input_missing_data interpolate_no_scipy Scenario.frame_blank
           (Scenario.config_two "A" "mean" "B" "mode") []).2 =
    [] ++ concat (info_record (Scenario.config_two "A" "mean" "B" "mode") <$> pre)
       ++ [(ERROR, "inputting missing data for " +:+ column +:+ ": "
                   +:+ exn_str e)].
Proof.
  apply (failure_stops_at_the_raising_column interpolate_no_scipy
           Scenario.frame_blank (Scenario.config_two "A" "mean" "B" "mode") []).
  reflexivity.
Defined.

(** ** Frames that the configuration does not touch *)

(** X3. When the configuration names no column of the frame, the pass
    returns the frame it was given, the very object of the caller, changes
    nothing in it and logs nothing. *)
Theorem unconfigured_frame_is_returned_as_is interpolate df config records :
  (∀ column, column ∈ DataFrame.columns df →
             Py.strip column ∉ ConfigParser.sections config) →
  input_missing_data interpolate df config records =
  (Some df, Store.enter df records).
Proof.
  intros Hnone. unfold input_missing_data.
  assert (∀ columns st,
            columns ⊆ DataFrame.columns df →
            for_columns (process_column interpolate config) columns st
            = (Completed, st)) as Hskip.
  { induction columns as [|column columns IH]; intros st Hsub; simpl; [done|].
    rewrite process_column_skip.
    - apply IH. intros c Hc. apply Hsub. by right.
    - apply Hnone, Hsub. by left. }
  by rewrite Hskip.
Qed.

Lemma unconfigured_frame_is_returned_as_is_witness :
  input_missing_data interpolate_no_scipy Scenario.frame_AB
    (Scenario.config_for "C" "remove") [] =
  (Some Scenario.frame_AB, Store.enter Scenario.frame_AB []).
Proof.
  apply (unconfigured_frame_is_returned_as_is interpolate_no_scipy
           Scenario.frame_AB (Scenario.config_for "C" "remove") []).
  intros column Hin.
  change (DataFrame.columns Scenario.frame_AB) with ["A"; "B"] in Hin.
  rewrite !elem_of_cons, elem_of_nil in Hin.
  destruct Hin as [->|[->|[]]]; compute_done.
Defined.

(** ** The frame of the caller *)

Lemma process_column_remove interpolate config column s st :
  Py.strip column ∈ ConfigParser.sections config →
  ConfigParser.get config (Py.strip column) "strategy" = Ok s →
  Py.lower s = "remove" →
  column ∈ DataFrame.columns (Store.df st) →
  ∃ d,
    DataFrame.dropna column (Store.df st) = Ok d ∧
    process_column interpolate config column st =
    (Ok (), {| passed := passed st; rebound := Some d;
               log := log st ++ [(INFO, column +:+ ": cleaned using strategy remove")] |}).
Proof.
  intros Hsec Hget Hlow Hin. rewrite process_column_eq.
  apply existsb_eqb_elem in Hsec. rewrite Hsec, Hget, Hlow.
  destruct (apply_strategy_cases interpolate column "remove" st)
    as [[_ ->]|[(? & _)|[Hno _]]]; [|done|].
  - assert (∃ d, DataFrame.dropna column (Store.df st) = Ok d) as [d Hd].
    { unfold DataFrame.dropna, mbind, result_bind.
      rewrite (getitem_cells _ _ Hin). by eexists. }
    exists d. by rewrite Hd.
  - exfalso. apply Hno. unfold strategies. rewrite !elem_of_cons. tauto.
Qed.

(** X4. Without a [remove] in the configuration the pass works in place:
    whether it returns a frame or [None], the name [df] still stands for the
    object of the caller, and a returned frame is that object. *)
Theorem without_remove_the_pass_works_in_place
    interpolate df config records returned st :
  (∀ section s, ConfigParser.get config section "strategy" = Ok s →
                Py.lower s ≠ "remove") →
  input_missing_data interpolate df config records = (returned, st) →
  rebound st = None ∧ ∀ d, returned = Some d → d = passed st.
Proof.
  intros Hno. unfold input_missing_data.
  destruct (for_columns _ _ _) as [exit st0] eqn:Hloop.
  assert (rebound st0 = None) as Hreb.
  { revert Hloop.
    apply (for_columns_any interpolate config (λ s, rebound s = None)); [|done].
    intros column s u s' _ Hs [->|(t & _ & Hget & [(Hr & _)|(_ & _ & series & ->)])]%process_column_store.
    - done.
    - by apply Hno in Hget.
    - simpl. by rewrite Hs. }
  destruct exit as [|column e]; intros [= <- <-]; simpl.
  - split; [done|]. intros d [= <-]. unfold Store.df. by rewrite Hreb.
  - split; [done|]. by intros d.
Qed.

Lemma without_remove_the_pass_works_in_place_witness :
  rebound (input_missing_data interpolate_no_scipy Scenario.frame_AB
             (Scenario.config_for "A" "mean") []).2 = None.
Proof.
  eapply (without_remove_the_pass_works_in_place interpolate_no_scipy
            Scenario.frame_AB (Scenario.config_for "A" "mean") []).
  - intros section s ->%config_for_get. by vm_compute.
  - reflexivity.
Defined.

(** X5. Whatever the configuration and whatever the outcome, the object of
    the caller keeps its row labels and its column names after the call, and
    stays well-formed: the pass only ever assigns columns in it, and rows
    are dropped in a copy. *)
Theorem caller_frame_keeps_rows_and_columns
    interpolate df config records returned st :
  input_missing_data interpolate df config records = (returned, st) →
  index (passed st) = index df ∧
  DataFrame.columns (passed st) = DataFrame.columns df ∧
  (DataFrame.well_formed df → DataFrame.well_formed (passed st)).
Proof.
  unfold input_missing_data.
  destruct (for_columns _ _ _) as [exit st0] eqn:Hloop.
  assert (index (passed st0) = index df ∧
          DataFrame.columns (passed st0) = DataFrame.columns df ∧
          (DataFrame.well_formed df → DataFrame.well_formed (passed st0)))
    as Hst0.
  { revert Hloop.
    apply (for_columns_any interpolate config
             (λ s, index (passed s) = index df ∧
                   DataFrame.columns (passed s) = DataFrame.columns df ∧
                   (DataFrame.well_formed df → DataFrame.well_formed (passed s))));
      [|done].
    intros column s u s' _ (Hi & Hc & Hwf)
      [->|(t & _ & _ & [(_ & d & _ & ->)|(_ & _ & series & ->)])]%process_column_store;
      [done|done|].
    simpl. destruct (rebound s); [done|].
    split; [done|]. split; [by rewrite columns_loc_setitem|].
    intros H. by apply well_formed_loc_setitem, Hwf. }
  by destruct exit; intros [= <- <-].
Qed.

(** X6. Once a column configured with [remove] has gone through, the object
    of the caller is no longer written to: its state at the end of the call,
    whether later columns fail or not, is the one it had when the removal was
    reached. *)
Theorem caller_frame_is_frozen_by_remove
    interpolate df config records pre column post s st1 returned st :
  DataFrame.columns df = pre ++ column :: post →
  Py.strip column ∈ ConfigParser.sections config →
  ConfigParser.get config (Py.strip column) "strategy" = Ok s →
  Py.lower s = "remove" →
  for_columns (process_column interpolate config) pre (Store.enter df records)
  = (Completed, st1) →
  input_missing_data interpolate df config records = (returned, st) →
  passed st = passed st1 ∧ ∀ d, returned = Some d → rebound st = Some d.
Proof.
  intros Hcols Hsec Hget Hlow Hpre. unfold input_missing_data.
  rewrite Hcols, for_columns_app, Hpre. simpl.
  pose proof (for_columns_shape _ _ _ _ _ Hpre) as [Hc1 _].
  change (Store.df (Store.enter df records)) with df in Hc1.
  destruct (process_column_remove interpolate config column s st1)
    as (d0 & _ & ->); [done|done|done| |].
  { rewrite Hc1, Hcols. apply elem_of_app. right. by left. }
  destruct (for_columns _ post _) as [exit st0] eqn:Hloop.
  assert (passed st0 = passed st1 ∧ is_Some (rebound st0)) as [Hp [d1 Hr]].
  { revert Hloop.
    apply (for_columns_any interpolate config
             (λ s, passed s = passed st1 ∧ is_Some (rebound s))); [|by eauto].
    intros c t u t' _ [Hp [d1 Hr]]
      [->|(x & _ & _ & [(_ & d & _ & ->)|(_ & _ & series & ->)])]%process_column_store.
    - eauto.
    - eauto.
    - simpl. rewrite Hr. eauto. }
  destruct exit as [|c e]; intros [= <- <-]; simpl.
  - split; [done|]. intros d [= <-]. unfold Store.df. by rewrite Hr.
  - split; [done|]. by intros d.
Qed.

Lemma caller_frame_keeps_rows_and_columns_witness :
  index (passed (input_missing_data interpolate_no_scipy Scenario.frame_text
                   (Scenario.config_two "A" "remove" "B" "zero") []).2) =
  index Scenario.frame_text.
Proof.
  eapply (caller_frame_keeps_rows_and_columns interpolate_no_scipy
            Scenario.frame_text (Scenario.config_two "A" "remove" "B" "zero") []).
  reflexivity.
Defined.

Lemma caller_frame_is_frozen_by_remove_witness :
  passed (input_missing_data interpolate_no_scipy Scenario.frame_text
            (Scenario.config_two "A" "remove" "B" "zero") []).2 =
  Scenario.frame_text.
Proof.
  eapply (caller_frame_is_frozen_by_remove interpolate_no_scipy
            Scenario.frame_text (Scenario.config_two "A" "remove" "B" "zero") []
            [] "A" ["B"] "remove" (Store.enter Scenario.frame_text [])).
  - reflexivity.
  - compute_done.
  - reflexivity.
  - reflexivity.
  - reflexivity.
  - reflexivity.
Defined.

(** ** Shape of the returned frame *)

(** X7. Whatever the configuration, a frame returned by the pass has the
    column names of the given frame in the same order, and its row labels
    are row labels of the given frame in their former order: columns are
    never added, renamed or reordered, rows are only ever dropped.  A
    well-formed frame stays well-formed. *)
Theorem pass_keeps_columns_and_row_order interpolate df config records d st :
  input_missing_data interpolate df config records = (Some d, st) →
  DataFrame.columns d = DataFrame.columns df ∧
  index d `sublist_of` index df ∧
  (DataFrame.well_formed df → DataFrame.well_formed d).
Proof.
  intros [Hloop ->]%input_missing_data_Some.
  pose proof (for_columns_shape _ _ _ _ _ Hloop) as [Hc Hwf].
  split; [done|]. split; [|done].
  revert Hloop.
  apply (for_columns_invariant
           (λ s, index (Store.df s) `sublist_of` index df)); [|done].
  intros column s u s' _ Hs
    [[_ ->]|(t & _ & _ & _ & [(_ & _ & Hd)|(_ & _ & _ & series & ->)])]%process_column_ok;
    [done| |done].
  apply dropna_Ok in Hd as [_ ->]. simpl.
  etrans; [apply keep_sublist | done].
Qed.

Lemma pass_keeps_columns_and_row_order_witness :
  ∃ d st,
    input_missing_data interpolate_no_scipy Scenario.frame_text
      (Scenario.config_two "A" "remove" "B" "zero") [] = (Some d, st) ∧
    DataFrame.columns d = DataFrame.columns Scenario.frame_text ∧
    index d `sublist_of` index Scenario.frame_text.
Proof.
  eexists _, _. split; [reflexivity|].
  destruct (pass_keeps_columns_and_row_order interpolate_no_scipy
              Scenario.frame_text (Scenario.config_two "A" "remove" "B" "zero")
              [] _ _ eq_refl) as (Hc & Hi & _).
  by split.
Defined.

(** ** Columns with nothing to fill *)

Lemma fillna_complete m s :
  Forall (λ v, notnull v = true) s → Series.fillna m s = s.
Proof.
  induction 1 as [|x s Hx _ IH]; [done|].
  unfold Series.fillna in *. rewrite fmap_cons, IH.
  unfold notnull in Hx. by destruct (isnull x).
Qed.

Lemma ffill_from_complete last s :
  Forall (λ v, notnull v = true) s → Series.ffill_from last s = s.
Proof.
  intros Hall. revert last. induction Hall as [|x s Hx _ IH]; intros last; [done|].
  simpl. unfold notnull in Hx. destruct (isnull x); [done|]. by rewrite IH.
Qed.

Lemma bfill_complete s :
  Forall (λ v, notnull v = true) s → Series.bfill s = s.
Proof.
  induction 1 as [|x s Hx _ IH]; [done|].
  simpl. rewrite IH. unfold notnull in Hx. by destruct (isnull x).
Qed.

Lemma keep_complete {A} (s : Series) (l : list A) :
  Forall (λ v, notnull v = true) s → length l ≤ length s →
  DataFrame.keep (notnull <$> s) l = l.
Proof.
  intros Hall. revert l. induction Hall as [|x s Hx _ IH]; intros [|y l] Hlen;
    simpl in *; [done|lia|done|].
  rewrite Hx, IH; [done|lia].
Qed.

Lemma set_column_same column (s : Series) (l : list (string * Series)) :
  NoDup l.*1 → assoc column l = Some s →
  (λ nc : string * Series, if String.eqb nc.1 column then (nc.1, s) else nc) <$> l
  = l.
Proof.
  induction l as [|[n c] l IH]; [done|].
  rewrite fmap_cons. simpl. intros [Hn Hnd]%NoDup_cons.
  destruct (String.eqb_spec n column) as [->|Hne].
  - intros [= ->]. f_equal.
    apply list_eq. intros i. rewrite list_lookup_fmap.
    destruct (l !! i) as [[n' c']|] eqn:Hi; [|done]. simpl.
    destruct (String.eqb_spec n' column) as [->|_]; [|done].
    exfalso. apply Hn. apply list_elem_of_fmap. exists (column, c').
    split; [done|]. by eapply list_elem_of_lookup_2.
  - intros Hs. f_equal. by apply IH.
Qed.

Lemma loc_setitem_same df column :
  DataFrame.well_formed df → column ∈ DataFrame.columns df →
  DataFrame.loc_setitem column (DataFrame.cells df column) df = df.
Proof.
  intros Hwf Hin. pose proof (well_formed_cells _ _ Hwf Hin) as Hlen.
  unfold DataFrame.loc_setitem. rewrite <- Hlen, resize_all.
  destruct df as [labels columns]. simpl. f_equal.
  apply set_column_same; [apply Hwf|].
  unfold DataFrame.cells. simpl.
  apply assoc_is_Some in Hin as [s Hs]. simpl in Hs. by rewrite Hs.
Qed.

Lemma dropna_complete df column :
  DataFrame.well_formed df → column ∈ DataFrame.columns df →
  Forall (λ v, notnull v = true) (DataFrame.cells df column) →
  DataFrame.dropna column df = Ok df.
Proof.
  intros Hwf Hin Hall. pose proof (well_formed_cells _ _ Hwf Hin) as Hlen.
  unfold DataFrame.dropna, mbind, result_bind. rewrite (getitem_cells _ _ Hin).
  destruct Hwf as [_ Hcols].
  generalize dependent (DataFrame.cells df column). intros s Hall Hlen.
  clear Hin. destruct df as [labels columns]. simpl in *. f_equal. f_equal.
  - apply keep_complete; [done | lia].
  - induction Hcols as [|[n c] l Hc _ IH]; [done|].
    rewrite fmap_cons. simpl in *. f_equal; [|apply IH].
    rewrite keep_complete; [done|done|lia].
Qed.

(** One column with no null cell, under a strategy other than an
    interpolation: the frame stays as it is. *)
Lemma process_column_complete interpolate config column s st st' :
  DataFrame.well_formed (Store.df st) →
  column ∈ DataFrame.columns (Store.df st) →
  Py.strip column ∈ ConfigParser.sections config →
  ConfigParser.get config (Py.strip column) "strategy" = Ok s →
  Py.lower s ∈ ["mean"; "median"; "mode"; "zero"; "remove"; "ffill"; "bfill"] →
  Forall (λ v, notnull v = true) (DataFrame.cells (Store.df st) column) →
  process_column interpolate config column st = (Ok (), st') →
  Store.df st' = Store.df st.
Proof.
  intros Hwf Hin Hsec Hget Hlow Hall Hrun.
  assert (∀ f,
            apply_strategy interpolate column (Py.lower s) st
            = transform_column column f st →
            (∀ series, f (DataFrame.cells (Store.df st) column) = Ok series →
                       series = DataFrame.cells (Store.df st) column) →
            Store.df st' = Store.df st) as Hassign.
  { intros f Hf Hid.
    destruct (process_column_assign_inv interpolate config column s f st st')
      as (series & Hseries & ->); [done..|].
    rewrite (Hid _ Hseries). by apply loc_setitem_same. }
  rewrite !elem_of_cons, elem_of_nil in Hlow.
  destruct Hlow as [Hl|[Hl|[Hl|[Hl|[Hl|[Hl|[Hl|[]]]]]]]].
  - apply (Hassign (λ s, m ← Series.mean s; Ok (Series.fillna m s)));
      [by rewrite Hl|].
    intros series. unfold mbind, result_bind.
    destruct (Series.mean _); [|done]. intros [= <-]. by apply fillna_complete.
  - apply (Hassign (λ s, m ← Series.median s; Ok (Series.fillna m s)));
      [by rewrite Hl|].
    intros series. unfold mbind, result_bind.
    destruct (Series.median _); [|done]. intros [= <-]. by apply fillna_complete.
  - apply (Hassign (λ s, mode_value ← Series.getitem0 (Series.mode s);
                         Ok (Series.fillna mode_value s)));
      [by rewrite Hl|].
    intros series. unfold mbind, result_bind.
    destruct (Series.getitem0 _); [|done]. intros [= <-]. by apply fillna_complete.
  - apply (Hassign (λ s, Ok (Series.fillna (Num 0) s))); [by rewrite Hl|].
    intros series [= <-]. by apply fillna_complete.
  - destruct (process_column_remove interpolate config column s st)
      as (d & Hd & Hrun'); [done..|].
    rewrite Hrun' in Hrun. injection Hrun as <-.
    rewrite dropna_complete in Hd by done. by injection Hd as <-.
  - apply (Hassign (λ s, Ok (Series.ffill s))); [by rewrite Hl|].
    intros series [= <-]. by apply ffill_from_complete.
  - apply (Hassign (λ s, Ok (Series.bfill s))); [by rewrite Hl|].
    intros series [= <-]. by apply bfill_complete.
Qed.

(** X8. On a well-formed frame whose configured columns hold no null cell,
    a pass whose strategies are among [mean], [median], [mode], [zero],
    [remove], [ffill] and [bfill] changes nothing: the frame it returns is
    the frame it was given, cell for cell and row for row. *)
Theorem complete_columns_are_left_as_they_are interpolate df config records d st :
  DataFrame.well_formed df →
  (∀ column s,
     column ∈ DataFrame.columns df →
     ConfigParser.get config (Py.strip column) "strategy" = Ok s →
     Py.lower s ∈ ["mean"; "median"; "mode"; "zero"; "remove"; "ffill"; "bfill"] ∧
     Forall (λ v, notnull v = true) (DataFrame.cells df column)) →
  input_missing_data interpolate df config records = (Some d, st) →
  d = df.
Proof.
  intros Hwf Hcfg [Hloop ->]%input_missing_data_Some.
  revert Hloop.
  apply (for_columns_invariant (λ s, Store.df s = df)); [|done].
  intros column s [] s' Hin Hs Hrun.
  pose proof Hrun as [[_ ->]|(t & Hsec & Hget & _)]%process_column_ok; [done|].
  destruct (Hcfg column t Hin Hget) as [Hlow Hall].
  rewrite <- Hs in Hwf, Hin, Hall.
  by rewrite (process_column_complete _ _ _ _ _ _ Hwf Hin Hsec Hget Hlow Hall Hrun).
Qed.

Lemma complete_columns_are_left_as_they_are_witness :
  ∃ d st,
    input_missing_data interpolate_no_scipy Scenario.frame_text
      (Scenario.config_for "B" "MODE") [] = (Some d, st) ∧
    d = Scenario.frame_text.
Proof.
  eexists _, _. split; [reflexivity|].
  eapply (complete_columns_are_left_as_they_are interpolate_no_scipy
            Scenario.frame_text (Scenario.config_for "B" "MODE") []).
  - split; [compute_done|]. repeat constructor.
  - intros column s Hin Hget.
    change (DataFrame.columns Scenario.frame_text) with ["A"; "B"] in Hin.
    rewrite !elem_of_cons, elem_of_nil in Hin.
    destruct Hin as [->|[->|[]]]; [by vm_compute in Hget|].
    apply config_for_get in Hget as ->.
    split; [compute_done | repeat constructor].
  - reflexivity.
Defined.

(** ** Letter case of the strategies *)

(** X9. The pass does not see the letter case of the strategies: two
    configurations with the same sections whose strategies agree once
    lower-cased give the same result, the same frames and the same log. *)
Theorem strategy_case_is_irrelevant interpolate df c1 c2 records :
  same_up_to_case c1 c2 →
  input_missing_data interpolate df c1 records =
  input_missing_data interpolate df c2 records.
Proof.
  intros [Hsec Hget].
  assert (∀ column st,
            process_column interpolate c1 column st =
            process_column interpolate c2 column st) as Hbody.
  { intros column st. rewrite !process_column_eq, Hsec.
    destruct (existsb _ _); [|done].
    specialize (Hget (Py.strip column)).
    destruct (ConfigParser.get c1 _ _), (ConfigParser.get c2 _ _); try done.
    - by rewrite Hget.
    - by rewrite Hget. }
  unfold input_missing_data.
  assert (∀ columns st,
            for_columns (process_column interpolate c1) columns st =
            for_columns (process_column interpolate c2) columns st) as ->; [|done].
  induction columns as [|column columns IH]; intros st; simpl; [done|].
  rewrite Hbody. destruct (process_column _ _ _ _) as [[u|e] st1]; [apply IH | done].
Qed.

Lemma strategy_case_is_irrelevant_witness :
  input_missing_data interpolate_no_scipy Scenario.frame_AB
    (Scenario.config_for "A" "MeDiAn") [] =
  input_missing_data interpolate_no_scipy Scenario.frame_AB
    (Scenario.config_for "A" "median") [].
Proof.
  apply (strategy_case_is_irrelevant interpolate_no_scipy Scenario.frame_AB
           (Scenario.config_for "A" "MeDiAn") (Scenario.config_for "A" "median") []).
  split; [reflexivity|]. intros section.
  unfold ConfigParser.get, Scenario.config_for. cbn [sects defaults assoc].
  destruct (String.eqb "A" section); reflexivity.
Defined.

(** ** Strategies that cannot fail *)

(** X10. On a well-formed frame, when every column that the configuration
    names has one of the strategies [remove], [ffill] and [bfill], the pass
    returns a frame, whatever the cells are: these three never raise. *)
Theorem remove_ffill_bfill_never_fail interpolate df config records :
  DataFrame.well_formed df →
  (∀ column,
     column ∈ DataFrame.columns df →
     Py.strip column ∈ ConfigParser.sections config →
     ∃ s, ConfigParser.get config (Py.strip column) "strategy" = Ok s ∧
          Py.lower s ∈ ["remove"; "ffill"; "bfill"]) →
  ∃ d st, input_missing_data interpolate df config records = (Some d, st).
Proof.
  intros _ Hcfg. unfold input_missing_data.
  assert (∀ columns st,
            columns ⊆ DataFrame.columns df →
            DataFrame.columns (Store.df st) = DataFrame.columns df →
            ∃ st', for_columns (process_column interpolate config) columns st
                   = (Completed, st')) as Hloop.
  { induction columns as [|column columns IH]; intros st Hsub Hcols; simpl;
      [by eexists|].
    assert (column ∈ DataFrame.columns df) as Hin by (apply Hsub; by left).
    assert (columns ⊆ DataFrame.columns df) as Hsub'.
    { intros c Hc. apply Hsub. by right. }
    destruct (decide (Py.strip column ∈ ConfigParser.sections config))
      as [Hsec|Hsec]; [|rewrite process_column_skip by done; by apply IH].
    destruct (Hcfg column Hin Hsec) as (s & Hget & Hlow).
    rewrite <- Hcols in Hin.
    assert (∀ f series,
              apply_strategy interpolate column (Py.lower s) st
              = transform_column column f st →
              f (DataFrame.cells (Store.df st) column) = Ok series →
              ∃ st', for_columns (process_column interpolate config)
                       (column :: columns) st = (Completed, st')) as Hassign.
    { intros f series Hf Hseries.
      destruct (process_column_assign interpolate config column s f series st)
        as (st1 & Hrun & Hdf & _); [done..|].
      simpl. rewrite Hrun. apply IH; [done|].
      by rewrite Hdf, columns_loc_setitem. }
    rewrite !elem_of_cons, elem_of_nil in Hlow.
    destruct Hlow as [Hl|[Hl|[Hl|[]]]].
    - destruct (process_column_remove interpolate config column s st)
        as (d & Hd & ->); [done..|].
      apply IH; [done|].
      change (DataFrame.columns d = DataFrame.columns df).
      by rewrite (columns_dropna _ _ _ Hd).
    - eapply (Hassign (λ s, Ok (Series.ffill s))); [by rewrite Hl|done].
    - eapply (Hassign (λ s, Ok (Series.bfill s))); [by rewrite Hl|done]. }
  destruct (Hloop (DataFrame.columns df) (Store.enter df records)) as [st' ->];
    [done|done|]. by eexists _, _.
Qed.

Lemma remove_ffill_bfill_never_fail_witness :
  ∃ d st,
    input_missing_data interpolate_no_scipy Scenario.frame_text
      (Scenario.config_two "A" "FFill" "B" "REMOVE") [] = (Some d, st).
Proof.
  apply (remove_ffill_bfill_never_fail interpolate_no_scipy
           Scenario.frame_text (Scenario.config_two "A" "FFill" "B" "REMOVE") []).
  - split; [compute_done|]. repeat constructor.
  - intros column Hin _.
    change (DataFrame.columns Scenario.frame_text) with ["A"; "B"] in Hin.
    rewrite !elem_of_cons, elem_of_nil in Hin.
    destruct Hin as [->|[->|[]]].
    + exists "FFill". split; [reflexivity | compute_done].
    + exists "REMOVE". split; [reflexivity | compute_done].
Defined.

(** ** A section without a strategy *)




(** ** Forward fill and backward fill together *)

Lemma ffill_from_notnull last s :
  notnull last = true →
  Forall (λ v, notnull v = true) (Series.ffill_from last s).
Proof.
  revert last. induction s as [|x s IH]; intros last Hlast; simpl; [done|].
  destruct (isnull x) eqn:Hx; constructor; auto.
  - unfold notnull. by rewrite Hx.
  - apply IH. unfold notnull. by rewrite Hx.
Qed.

Lemma bfill_head_valid s :
  (∃ v, v ∈ s ∧ notnull v = true) →
  ∃ v t, Series.bfill s = v :: t ∧ notnull v = true.
Proof.
  induction s as [|x s IH]; intros (v & Hin & Hv).
  - by apply elem_of_nil in Hin.
  - simpl. destruct (isnull x) eqn:Hx.
    + apply elem_of_cons in Hin as [->|Hin].
      { unfold notnull in Hv. by rewrite Hx in Hv. }
      destruct IH as (w & t & Hw & Hnn); [by eauto|].
      rewrite Hw. simpl. by eexists _, _.
    + eexists _, _. split; [done|]. unfold notnull. by rewrite Hx.
Qed.

(** X12. On a column that holds at least one value, a forward fill followed
    by a backward fill, or a backward fill followed by a forward fill, leaves
    no null cell, and the column keeps its length. *)
Theorem ffill_and_bfill_together_fill_everything (s : Series) :
  (∃ v, v ∈ s ∧ notnull v = true) →
  Forall (λ v, notnull v = true) (Series.bfill (Series.ffill s)) ∧
  Forall (λ v, notnull v = true) (Series.ffill (Series.bfill s)) ∧
  length (Series.bfill (Series.ffill s)) = length s ∧
  length (Series.ffill (Series.bfill s)) = length s.
Proof.
  intros Hv. split; [|split; [|split]].
  - unfold Series.ffill. induction s as [|x s IH].
    { destruct Hv as (v & Hin & _). by apply elem_of_nil in Hin. }
    cbn [Series.ffill_from]. destruct (isnull x) eqn:Hx.
    + destruct Hv as (v & Hin & Hv).
      apply elem_of_cons in Hin as [->|Hin].
      { unfold notnull in Hv. by rewrite Hx in Hv. }
      specialize (IH ltac:(eauto)).
      cbn [Series.bfill]. cbn [isnull].
      destruct (Series.bfill (Series.ffill_from NA s)) as [|w t] eqn:Hb.
      { apply (f_equal length) in Hb.
        rewrite length_bfill, length_ffill_from in Hb.
        destruct s; [by apply elem_of_nil in Hin | done]. }
      apply Forall_cons in IH as [Hw Ht]. simpl. by repeat constructor.
    + assert (Forall (λ v, notnull v = true) (x :: Series.ffill_from x s))
        as Hall.
      { constructor; [|apply ffill_from_notnull]; unfold notnull; by rewrite Hx. }
      by rewrite bfill_complete.
  - destruct (bfill_head_valid s Hv) as (v & t & -> & Hnn).
    unfold Series.ffill. simpl. unfold notnull in Hnn.
    destruct (isnull v) eqn:Hx; [done|]. constructor.
    + unfold notnull. by rewrite Hx.
    + apply ffill_from_notnull. unfold notnull. by rewrite Hx.
  - unfold Series.ffill. by rewrite length_bfill, length_ffill_from.
  - unfold Series.ffill. by rewrite length_ffill_from, length_bfill.
Qed.

Lemma ffill_and_bfill_together_fill_everything_witness :
  Forall (λ v, notnull v = true)
    (Series.bfill (Series.ffill [NA; Num 2; NA; Num 4; NA])).
Proof.
  apply (ffill_and_bfill_together_fill_everything [NA; Num 2; NA; Num 4; NA]).
  exists (Num 2). split; [right; by left | reflexivity].
Defined.

(** ** The script *)

(** X13. Whenever the script writes its output file, the columns of the
    file are the columns of the input with their names trimmed, in the same
    order. *)
Theorem output_has_the_trimmed_column_names interpolate csv fs writable out :
  cleaned_csv (main interpolate csv fs writable) = Some out →
  out.*1 = Py.strip <$> DataFrame.columns csv.
Proof.
  unfold main.
  destruct (read_config fs "parameter_config.ini" []) as [[config|e] records];
    [|done].
  destruct (input_missing_data _ _ _ _) as [[d|] st] eqn:Hcall; [|done].
  destruct writable; [|done]. simpl. intros [= <-].
  apply input_missing_data_Some in Hcall as [Hloop ->].
  apply for_columns_shape in Hloop as [Hc _].
  change (DataFrame.columns (Store.df st) =
          DataFrame.columns (DataFrame.strip_columns csv)) in Hc.
  by rewrite <- columns_strip_columns, <- Hc.
Qed.

Lemma output_has_the_trimmed_column_names_witness :
  ∃ out,
    cleaned_csv (main interpolate_no_scipy
                   {| index := [0; 1];
                      cols := [(" A ", [Num 1; NA]); ("B  ", [NA; Num 2])] |}
                   (λ _, ConfigParser.Parsed (Scenario.config_for "A" "zero"))
                   true) = Some out ∧
    out.*1 = ["A"; "B"].
Proof.
  eexists. split; [reflexivity|].
  apply (output_has_the_trimmed_column_names interpolate_no_scipy
           {| index := [0; 1];
              cols := [(" A ", [Num 1; NA]); ("B  ", [NA; Num 2])] |}
           (λ _, ConfigParser.Parsed (Scenario.config_for "A" "zero")) true).
  reflexivity.
Defined.

(** X14. The script prints its success message exactly when it has written
    the output file; it writes the file only when the data file was read,
    the configuration was read, the pass returned a frame and the output
    file can be written; and an exception leaves the script in two cases
    only, when reading the data file raises and when the configuration is
    malformed: then nothing is written or printed. *)
Theorem script_outcomes interpolate data_file fs writable :
  (is_Some (cleaned_csv (script interpolate data_file fs writable)) ↔
   printed (script interpolate data_file fs writable)
   = ["Data cleaning process completed successfully!"]) ∧
  (is_Some (cleaned_csv (script interpolate data_file fs writable)) →
   writable = true ∧
   ∃ csv config records,
     data_file = Ok csv ∧
     read_config fs "parameter_config.ini" [] = (Ok config, records) ∧
     is_Some (input_missing_data interpolate (DataFrame.strip_columns csv)
                config records).1) ∧
  (is_Some (uncaught (script interpolate data_file fs writable)) ↔
   (∃ e, data_file = Raise e) ∨
   fs "parameter_config.ini" = ConfigParser.Malformed) ∧
  (∀ e, data_file = Raise e →
        uncaught (script interpolate data_file fs writable) = Some e) ∧
  (is_Some (uncaught (script interpolate data_file fs writable)) →
   cleaned_csv (script interpolate data_file fs writable) = None ∧
   printed (script interpolate data_file fs writable) = []).
Proof.
  destruct data_file as [csv|e]; simpl.
  - unfold main, read_config, ConfigParser.read.
    destruct (fs "parameter_config.ini") as [| |config] eqn:Hfs; simpl;
      try (destruct (input_missing_data _ _ _ _) as [[d|] st] eqn:Hcall;
           [destruct writable|]; simpl).
    all: repeat split; try done; try (by intros [? [=]]); try (by intros [=]);
      try (by intros [[? [=]]|[=]]); try (by eexists); try (by right).
    all: eexists _, _, _; (split; [done|]); (split; [done|]);
      rewrite Hcall; by eexists.
  - repeat split; try done; try (by intros [? [=]]); try (by intros [=]).
    + intros _. left. by eexists.
    + by intros e' [= ->].
Qed.

Lemma script_outcomes_witness :
  cleaned_csv (script interpolate_no_scipy (Ok Scenario.frame_AB)
                 (λ _, ConfigParser.Malformed) true) = None ∧
  printed (script interpolate_no_scipy (Ok Scenario.frame_AB)
             (λ _, ConfigParser.Malformed) true) = [].
Proof.
  destruct (script_outcomes interpolate_no_scipy (Ok Scenario.frame_AB)
              (λ _, ConfigParser.Malformed) true) as (_ & _ & _ & _ & Hout).
  apply Hout. by eexists.
Defined.

(** ** The detector *)

(** X15. On a well-formed frame the detector returns the empty list
    exactly when no cell of the frame is null or an empty text. *)
Theorem detector_reports_nothing_iff_clean st :
  DataFrame.well_formed (Store.df st) →
  (find_columns_with_missing_data st).1 = Ok [] ↔
  ∀ column,
    column ∈ DataFrame.columns (Store.df st) →
    Forall (λ v, missing v = false) (DataFrame.cells (Store.df st) column).
Proof.
  intros _.
  unfold find_columns_with_missing_data, mbind, M_bind, Store.current.
  rewrite find_columns_loop_spec by done. simpl.
  split.
  - intros [= Hnil] column Hin.
    apply Forall_forall. intros v Hv.
    destruct (missing v) eqn:Hm; [|done]. exfalso.
    eapply (filter_nil_not_elem_of _ _ column Hnil); [|done].
    unfold Series.any. apply existsb_exists. exists v.
    split; [by apply list_elem_of_In | done].
  - intros Hclean. f_equal.
    induction (DataFrame.columns (Store.df st)) as [|column columns IH]; [done|].
    rewrite filter_cons, decide_False.
    + apply IH. intros c Hc. apply Hclean. by right.
    + specialize (Hclean column ltac:(by left)).
      unfold Series.any. intros [v [Hin Hv]]%existsb_exists.
      apply list_elem_of_In in Hin.
      rewrite Forall_forall in Hclean. by rewrite (Hclean v Hin) in Hv.
Qed.

Lemma detector_reports_nothing_iff_clean_witness :
  (find_columns_with_missing_data
     (Store.enter {| index := [0; 1];
                     cols := [("A", [Num 1; Num 2]); ("B", [Str "x"; Str "y"])] |}
        [])).1 = Ok [].
Proof.
  apply (detector_reports_nothing_iff_clean
           (Store.enter
              {| index := [0; 1];
                 cols := [("A", [Num 1; Num 2]);
                          ("B", [Str "x"; Str "y"])] |} [])).
  - split; [compute_done|]. repeat constructor.
  - intros column Hin.
    change (column ∈ ["A"; "B"]) in Hin.
    rewrite !elem_of_cons, elem_of_nil in Hin.
    destruct Hin as [->|[->|[]]]; repeat constructor.
Defined.

(** ** A configuration of removals *)

Lemma filter_all {A} (l : list A) : filter (λ _, true = true) l = l.
Proof.
  induction l as [|x l IH]; [done|]. by rewrite filter_cons_True, IH.
Qed.

(** X16. When every column of a well-formed frame that the configuration
    names is configured with [remove], the pass returns the frame made of
    exactly the rows that hold a value in all those columns, in their former
    order and with all their cells, and leaves the object of the caller as
    it was. *)
Theorem remove_only_pass_keeps_the_complete_rows interpolate df config records :
  DataFrame.well_formed df →
  (∀ column,
     column ∈ DataFrame.columns df →
     Py.strip column ∈ ConfigParser.sections config →
     ∃ s, ConfigParser.get config (Py.strip column) "strategy" = Ok s ∧
          Py.lower s = "remove") →
  ∃ d st,
    input_missing_data interpolate df config records = (Some d, st) ∧
    DataFrame.rows d =
    filter (λ r, complete_in config (DataFrame.columns df) r = true)
      (DataFrame.rows df) ∧
    passed st = df.
Proof.
  intros Hwf Hcfg. unfold input_missing_data.
  assert (∀ columns st,
            columns ⊆ DataFrame.columns df →
            DataFrame.columns (Store.df st) = DataFrame.columns df →
            DataFrame.well_formed (Store.df st) →
            ∃ st',
              for_columns (process_column interpolate config) columns st
              = (Completed, st') ∧
              DataFrame.rows (Store.df st') =
              filter (λ r, complete_in config columns r = true)
                (DataFrame.rows (Store.df st)) ∧
              passed st' = passed st) as Hloop.
  { induction columns as [|column columns IH]; intros st Hsub Hcols Hwfst.
    { exists st. split; [done|]. split; [|done]. simpl. by rewrite filter_all. }
    assert (column ∈ DataFrame.columns df) as Hin by (apply Hsub; by left).
    assert (columns ⊆ DataFrame.columns df) as Hsub'.
    { intros c Hc. apply Hsub. by right. }
    simpl.
    destruct (decide (Py.strip column ∈ ConfigParser.sections config))
      as [Hsec|Hsec].
    - destruct (Hcfg column Hin Hsec) as (s & Hget & Hlow).
      destruct (process_column_remove interpolate config column s st)
        as (d & Hd & ->); [done|done|done|by rewrite Hcols|].
      destruct (IH {| passed := passed st; rebound := Some d;
                      log := log st ++ [(INFO, column +:+ ": cleaned using strategy remove")] |})
        as (st' & Hrun & Hrows & Hpassed); [done| | |].
      { change (DataFrame.columns d = DataFrame.columns df).
        by rewrite (columns_dropna _ _ _ Hd). }
      { change (DataFrame.well_formed d). by eapply well_formed_dropna. }
      exists st'. split; [done|]. split; [|done].
      rewrite Hrows. change (Store.df _) with d at 1.
      rewrite (rows_dropna _ _ _ Hwfst Hd), list_filter_filter.
      apply list_filter_iff. intros r. unfold complete_in, configured. simpl.
      apply existsb_eqb_elem in Hsec. rewrite Hsec. simpl.
      rewrite andb_true_iff. tauto.
    - rewrite process_column_skip by done.
      destruct (IH st) as (st' & Hrun & Hrows & Hpassed); [done..|].
      exists st'. split; [done|]. split; [|done].
      rewrite Hrows. apply list_filter_iff. intros r.
      unfold complete_in, configured. simpl.
      destruct (existsb _ _) eqn:He; [by apply existsb_eqb_elem in He | done]. }
  destruct (Hloop (DataFrame.columns df) (Store.enter df records))
    as (st' & -> & Hrows & Hpassed); [done..|].
  by exists (Store.df st'), st'.
Qed.

Lemma remove_only_pass_keeps_the_complete_rows_witness :
  ∃ d st,
    input_missing_data interpolate_no_scipy Scenario.frame_AB
      (Scenario.config_two "A" "remove" "B" "Remove") [] = (Some d, st) ∧
    DataFrame.rows d =
    filter (λ r, complete_in (Scenario.config_two "A" "remove" "B" "Remove")
                   (DataFrame.columns Scenario.frame_AB) r = true)
      (DataFrame.rows Scenario.frame_AB) ∧
    passed st = Scenario.frame_AB.
Proof.
  apply (remove_only_pass_keeps_the_complete_rows interpolate_no_scipy
           Scenario.frame_AB (Scenario.config_two "A" "remove" "B" "Remove") []).
  - split; [compute_done|]. repeat constructor.
  - intros column Hin _.
    change (column ∈ ["A"; "B"]) in Hin.
    rewrite !elem_of_cons, elem_of_nil in Hin.
    destruct Hin as [->|[->|[]]].
    + exists "remove". split; reflexivity.
    + exists "Remove". split; reflexivity.
Defined.

(** ** The detector after the pass *)

Lemma elem_of_mode_cells s v : v ∈ Series.mode s → v ∈ s.
Proof.
  unfold Series.mode.
  set (ms := filter _ _).
  assert (v ∈ ms → v ∈ s) as Hms.
  { unfold ms. intros [_ Hv%elem_of_distinct]%list_elem_of_filter.
    unfold Series.valid in Hv. by apply list_elem_of_filter in Hv as [_ ?]. }
  destruct (_ || _); [rewrite elem_of_sort_by|]; exact Hms.
Qed.

Lemma number_value_not_text x : is_empty_text (number_value x) = false.
Proof. by destruct x as [[q|b]|]. Qed.

Lemma mean_not_text s m : Series.mean s = Ok m → is_empty_text m = false.
Proof.
  unfold Series.mean, mbind, result_bind.
  destruct (Series.numbers s) as [xs|]; [|done]. intros Hm.
  injection Hm as <-. destruct xs; [done | apply number_value_not_text].
Qed.

Lemma middle_not_text (sorted : list number) :
  is_empty_text (match sorted !! (length sorted / 2) with
                 | None => NA
                 | Some hi =>
                     if Nat.even (length sorted) then
                       match sorted !! (length sorted / 2 - 1) with
                       | Some lo =>
                           number_value (fdiv (fadd (Some lo) (Some hi)) 2)
                       | None => NA
                       end
                     else number_value (Some hi)
                 end) = false.
Proof.
  destruct (sorted !! (length sorted / 2)); [|done].
  destruct (Nat.even (length sorted)); [|apply number_value_not_text].
  destruct (sorted !! (length sorted / 2 - 1)); [|done].
  apply number_value_not_text.
Qed.

Lemma median_not_text s m : Series.median s = Ok m → is_empty_text m = false.
Proof.
  unfold Series.median, mbind, result_bind.
  destruct (Series.numbers s) as [xs|]; [|done]. intros Hm.
  injection Hm as <-. apply middle_not_text.
Qed.

(** The value that [mean], [median], [mode] and [zero] fill with, on a column
    that holds a value and whose mean or median is not NaN: it is not null,
    and it is a number or a cell of the column. *)
Lemma process_column_fill_value interpolate config column strategy st st' :
  Py.strip column ∈ ConfigParser.sections config →
  ConfigParser.get config (Py.strip column) "strategy" = Ok strategy →
  Py.lower strategy ∈ ["mean"; "median"; "mode"; "zero"] →
  column ∈ DataFrame.columns (Store.df st) →
  (∃ v, v ∈ DataFrame.cells (Store.df st) column ∧ notnull v = true) →
  fills_with_a_value (Py.lower strategy) (DataFrame.cells (Store.df st) column) →
  process_column interpolate config column st = (Ok (), st') →
  ∃ m, notnull m = true ∧
       (is_empty_text m = false ∨ m ∈ DataFrame.cells (Store.df st) column) ∧
       Store.df st' =
       DataFrame.loc_setitem column
         (Series.fillna m (DataFrame.cells (Store.df st) column)) (Store.df st).
Proof.
  intros Hsec Hget Hlow Hin Hv [Hmean Hmedian] Hrun.
  rewrite !elem_of_cons, elem_of_nil in Hlow.
  destruct Hlow as [Hlow|[Hlow|[Hlow|[Hlow|[]]]]].
  - destruct (process_column_assign_inv interpolate config column strategy
                (λ s, m ← Series.mean s; Ok (Series.fillna m s)) st st')
      as (series & Hf & Hdf); [done|done|by rewrite Hlow|done|done|].
    unfold mbind, result_bind in Hf.
    destruct (Series.mean _) as [m|] eqn:Hm; [|done]. injection Hf as <-.
    exists m. split; [by apply Hmean|].
    split; [left; by eapply mean_not_text | done].
  - destruct (process_column_assign_inv interpolate config column strategy
                (λ s, m ← Series.median s; Ok (Series.fillna m s)) st st')
      as (series & Hf & Hdf); [done|done|by rewrite Hlow|done|done|].
    unfold mbind, result_bind in Hf.
    destruct (Series.median _) as [m|] eqn:Hm; [|done]. injection Hf as <-.
    exists m. split; [by apply Hmedian|].
    split; [left; by eapply median_not_text | done].
  - destruct (process_column_assign_inv interpolate config column strategy
                (λ s, mode_value ← Series.getitem0 (Series.mode s);
                      Ok (Series.fillna mode_value s)) st st')
      as (series & Hf & Hdf); [done|done|by rewrite Hlow|done|done|].
    unfold mbind, result_bind in Hf.
    destruct (Series.mode _) as [|m ms] eqn:Hm; [done|]. injection Hf as <-.
    assert (m ∈ Series.mode (DataFrame.cells (Store.df st) column)) as Hmode
      by (rewrite Hm; by left).
    exists m. split; [by eapply elem_of_mode|].
    split; [right; by apply elem_of_mode_cells | done].
  - destruct (process_column_assign_inv interpolate config column strategy
                (λ s, Ok (Series.fillna (Num 0) s)) st st')
      as (series & Hf & Hdf); [done|done|by rewrite Hlow|done|done|].
    injection Hf as <-. exists (Num 0). split; [done|]. split; [by left | done].
Qed.

(** X17. Take a well-formed frame and a column without empty text that is
    configured with [mean], [median], [mode] or [zero], still holds a value
    when its turn comes and, for [mean] and [median], has then a mean or
    median that is not NaN.  If the pass returns a frame, the
    detector run on that frame does not report the column. *)
Theorem filled_column_is_not_reported
    interpolate df config records pre column post strategy st1 d st records' :
  DataFrame.well_formed df →
  DataFrame.columns df = pre ++ column :: post →
  Py.strip column ∈ ConfigParser.sections config →
  ConfigParser.get config (Py.strip column) "strategy" = Ok strategy →
  Py.lower strategy ∈ ["mean"; "median"; "mode"; "zero"] →
  for_columns (process_column interpolate config) pre (Store.enter df records)
  = (Completed, st1) →
  (∃ v, v ∈ DataFrame.cells (Store.df st1) column ∧ notnull v = true) →
  fills_with_a_value (Py.lower strategy) (DataFrame.cells (Store.df st1) column) →
  Forall (λ v, is_empty_text v = false) (DataFrame.cells df column) →
  input_missing_data interpolate df config records = (Some d, st) →
  ∃ found,
    find_columns_with_missing_data (Store.enter d records')
    = (Ok found, Store.enter d records') ∧
    column ∉ found.
Proof.
  intros Hwf Hcols Hsec Hget Hlow Hloop1 Hv Hfill Htext [Hloop ->]%input_missing_data_Some.
  pose proof (proj1 Hwf) as Hnd. rewrite Hcols in Hnd, Hloop.
  apply NoDup_app in Hnd as (_ & Hpre & [Hpost _]%NoDup_cons).
  apply for_columns_split in Hloop as (st1' & st2 & Hloop1' & Hrun & Hloop2).
  rewrite Hloop1 in Hloop1'. injection Hloop1' as <-.
  pose proof (for_columns_shape _ _ _ _ _ Hloop1) as [Hc1 Hwf1].
  pose proof (for_columns_other interpolate config
                (λ v, is_empty_text v = false) _ column _ _
                ltac:(intros Hp; apply (Hpre _ Hp); by left) Hloop1)
    as [_ Htext1].
  change (Store.df (Store.enter df records)) with df in Hc1, Hwf1, Htext1.
  specialize (Hwf1 Hwf). specialize (Htext1 Htext).
  assert (column ∈ DataFrame.columns (Store.df st1)) as Hin1.
  { rewrite Hc1, Hcols. apply elem_of_app. right. by left. }
  destruct (process_column_fill_value interpolate config column strategy st1 st2)
    as (m & Hm & Hm' & Hdf); [done..|].
  assert (Forall (λ v, missing v = false) (DataFrame.cells (Store.df st2) column))
    as Hclean2.
  { assert (is_empty_text m = false) as Hme.
    { destruct Hm' as [?|Hin]; [done|].
      rewrite Forall_forall in Htext1. by apply Htext1. }
    rewrite Hdf, cells_loc_setitem_same by (done || apply length_fillna).
    unfold Series.fillna. rewrite Forall_fmap.
    eapply Forall_impl; [exact Htext1|].
    intros v Hvt. simpl. unfold missing, notnull in *.
    destruct (isnull v) eqn:Hnull.
    - rewrite Hme. by destruct (isnull m).
    - by rewrite Hnull, Hvt. }
  pose proof (for_columns_other interpolate config (λ v, missing v = false)
                _ column _ _ Hpost Hloop2) as [_ Hclean].
  specialize (Hclean Hclean2).
  eexists. split.
  - unfold find_columns_with_missing_data, mbind, M_bind, Store.current.
    by rewrite find_columns_loop_spec.
  - intros [Hany _]%list_elem_of_filter.
    change (Store.df (Store.enter (Store.df st) records')) with (Store.df st) in Hany.
    unfold Series.any in Hany. apply existsb_exists in Hany as (v & Hin & Hmiss).
    apply list_elem_of_In in Hin.
    rewrite Forall_forall in Hclean. by rewrite (Hclean v Hin) in Hmiss.
Qed.

Lemma filled_column_is_not_reported_witness :
  ∃ found,
    find_columns_with_missing_data
      (Store.enter
         {| index := [0; 1; 2];
            cols := [("A", [Num 1; Num 1; Num 3]); ("B", [Str "x"; NA; Str "z"])] |}
         [])
    = (Ok found,
       Store.enter
         {| index := [0; 1; 2];
            cols := [("A", [Num 1; Num 1; Num 3]); ("B", [Str "x"; NA; Str "z"])] |}
         []) ∧
    "A" ∉ found.
Proof.
  apply (filled_column_is_not_reported interpolate_no_scipy Scenario.frame_AB
           (Scenario.config_for "A" "mode") [] [] "A" ["B"] "mode"
           (Store.enter Scenario.frame_AB [])
           {| index := [0; 1; 2];
              cols := [("A", [Num 1; Num 1; Num 3]);
                       ("B", [Str "x"; NA; Str "z"])] |}
           {| passed := {| index := [0; 1; 2];
                           cols := [("A", [Num 1; Num 1; Num 3]);
                                    ("B", [Str "x"; NA; Str "z"])] |};
              rebound := None;
              log := [(INFO, "A: cleaned using strategy mode")] |}
           []).
  - split; [compute_done|]. repeat constructor.
  - reflexivity.
  - compute_done.
  - reflexivity.
  - compute_done.
  - reflexivity.
  - exists (Num 1). split; [by left | reflexivity].
  - split; by vm_compute.
  - repeat constructor.
  - reflexivity.
Defined.

(** ** Columns are filled one by one *)

(** A strategy other than [remove] assigns to the column a series computed
    from the cells of that column and the row labels, by a function that
    depends on the strategy alone. *)
Lemma apply_strategy_uniform interpolate strategy :
  strategy ≠ "remove" → strategy ∈ strategies →
  ∃ g : list nat → Series → result Series,
    ∀ column st,
      apply_strategy interpolate column strategy st =
      transform_column column (g (index (Store.df st))) st.
Proof.
  intros Hr Hin. unfold strategies in Hin.
  rewrite !elem_of_cons, elem_of_nil in Hin.
  destruct Hin as [->|[->|[->|[->|[->|[->|[->|[->|[->|[->|[->|[->|[]]]]]]]]]]]]];
    try done.
  - by exists (λ _ s, m ← Series.mean s; Ok (Series.fillna m s)).
  - by exists (λ _ s, m ← Series.median s; Ok (Series.fillna m s)).
  - by exists (λ _ s, mode_value ← Series.getitem0 (Series.mode s);
                      Ok (Series.fillna mode_value s)).
  - by exists (λ _ s, Ok (Series.fillna (Num 0) s)).
  - by exists (λ _ s, Ok (Series.ffill s)).
  - by exists (λ _ s, Ok (Series.bfill s)).
  - by exists (interpolate "nearest").
  - by exists (interpolate "linear").
  - by exists (interpolate "slinear").
  - by exists (interpolate "quadratic").
  - by exists (interpolate "cubic").
Qed.

(** X18. Without a [remove] in the configuration the columns do not
    influence each other: in the frame that the pass returns, a configured
    column holds exactly the cells that its own strategy computes from the
    frame as it was given, whatever the other columns and their strategies
    are. *)
Theorem columns_are_filled_independently
    interpolate df config records records' column d st :
  DataFrame.well_formed df →
  (∀ section s, ConfigParser.get config section "strategy" = Ok s →
                Py.lower s ≠ "remove") →
  column ∈ DataFrame.columns df →
  input_missing_data interpolate df config records = (Some d, st) →
  ∃ st',
    process_column interpolate config column (Store.enter df records')
    = (Ok (), st') ∧
    DataFrame.cells d column = DataFrame.cells (Store.df st') column.
Proof.
  intros Hwf Hno Hin [Hloop ->]%input_missing_data_Some.
  apply list_elem_of_split in Hin as (pre & post & Hcols).
  pose proof (proj1 Hwf) as Hnd. rewrite Hcols in Hnd, Hloop.
  apply NoDup_app in Hnd as (_ & Hpre & [Hpost _]%NoDup_cons).
  apply for_columns_split in Hloop as (st1 & st2 & Hloop1 & Hrun & Hloop2).
  assert (∀ columns s s',
            column ∉ columns →
            for_columns (process_column interpolate config) columns s
            = (Completed, s') →
            index (Store.df s') = index (Store.df s) ∧
            DataFrame.cells (Store.df s') column = DataFrame.cells (Store.df s) column)
    as Hkeep.
  { intros columns s s' Hnotin.
    apply (for_columns_invariant
             (λ t, index (Store.df t) = index (Store.df s) ∧
                   DataFrame.cells (Store.df t) column
                   = DataFrame.cells (Store.df s) column)); [|done].
    intros c t u t' Hc [Hi Hcl] Hstep.
    apply process_column_no_remove in Hstep as [Hi' Hcl'];
      [|intros s0; apply Hno].
    rewrite Hi', Hcl'; [done|]. by intros ->. }
  destruct (Hkeep pre _ _ ltac:(intros Hp; apply (Hpre _ Hp); by left) Hloop1)
    as [Hi1 Hcl1].
  destruct (Hkeep post _ _ Hpost Hloop2) as [_ Hcl2].
  pose proof (for_columns_shape _ _ _ _ _ Hloop1) as [Hc1 Hwf1].
  change (Store.df (Store.enter df records)) with df in Hi1, Hcl1, Hc1, Hwf1.
  specialize (Hwf1 Hwf).
  assert (column ∈ DataFrame.columns df) as Hin.
  { rewrite Hcols. apply elem_of_app. right. by left. }
  rewrite Hcl2. clear Hcl2 Hloop2 Hloop1 Hkeep.
  pose proof Hrun as [[Hsec ->]|(s & Hsec & Hget & _ & [(Hr & _)|(Hr & Hs & _)])]%process_column_ok.
  - exists (Store.enter df records'). split; [by apply process_column_skip|].
    by rewrite Hcl1.
  - by apply Hno in Hget.
  - destruct (apply_strategy_uniform interpolate (Py.lower s) Hr Hs) as [g Hg].
    destruct (process_column_assign_inv interpolate config column s
                (g (index (Store.df st1))) st1 st2)
      as (series & Hseries & Hdf); [done|done|apply Hg|by rewrite Hc1|done|].
    rewrite Hi1, Hcl1 in Hseries.
    destruct (process_column_assign interpolate config column s
                (g (index df)) series (Store.enter df records'))
      as (st' & Hrun' & Hdf' & _); [done|done|apply Hg|done|done|].
    exists st'. split; [done|].
    rewrite Hdf, Hdf', !cells_loc_setitem_eq, Hi1; [done|done|by rewrite Hc1].
Qed.

Lemma columns_are_filled_independently_witness :
  ∃ st',
    process_column interpolate_no_scipy
      (Scenario.config_two "A" "mean" "B" "ffill") "B"
      (Store.enter Scenario.frame_AB []) = (Ok (), st') ∧
    DataFrame.cells
      {| index := [0; 1; 2];
         cols := [("A", [Num 1; Num 2; Num 3]);
                  ("B", [Str "x"; Str "x"; Str "z"])] |} "B"
    = DataFrame.cells (Store.df st') "B".
Proof.
  apply (columns_are_filled_independently interpolate_no_scipy Scenario.frame_AB
           (Scenario.config_two "A" "mean" "B" "ffill") [] [] "B"
           {| index := [0; 1; 2];
              cols := [("A", [Num 1; Num 2; Num 3]);
                       ("B", [Str "x"; Str "x"; Str "z"])] |}
           {| passed := {| index := [0; 1; 2];
                           cols := [("A", [Num 1; Num 2; Num 3]);
                                    ("B", [Str "x"; Str "x"; Str "z"])] |};
              rebound := None;
              log := [(INFO, "A: cleaned using strategy mean");
                      (INFO, "B: cleaned using strategy ffill")] |}).
  - split; [compute_done|]. repeat constructor.
  - intros section s. unfold ConfigParser.get, Scenario.config_two.
    cbn [sects defaults assoc].
    destruct (String.eqb "A" section); [intros [= <-]; by vm_compute|].
    destruct (String.eqb "B" section); [intros [= <-]; by vm_compute|done].
  - compute_done.
  - reflexivity.
Defined.

(** ** Trimming the column names first *)

Lemma NoDup_fmap_inj {A B} (f : A → B) (l : list A) a b :
  NoDup (f <$> l) → a ∈ l → b ∈ l → f a = f b → a = b.
Proof.
  induction l as [|x l IH]; [by intros _ ?%elem_of_nil|].
  rewrite fmap_cons. intros [Hx Hnd]%NoDup_cons.
  rewrite !elem_of_cons. intros [->|Ha] [->|Hb] Heq; [done| | |by apply IH].
  - exfalso. apply Hx. rewrite Heq. by apply list_elem_of_fmap_2.
  - exfalso. apply Hx. rewrite <- Heq. by apply list_elem_of_fmap_2.
Qed.

Section Trimmed.

Variable d : DataFrame.
Variable column : string.
Hypothesis Hnd : NoDup (Py.strip <$> DataFrame.columns d).
Hypothesis Hin : column ∈ DataFrame.columns d.

Lemma eqb_strip name :
  name ∈ DataFrame.columns d →
  String.eqb (Py.strip name) (Py.strip column) = String.eqb name column.
Proof.
  intros Hname. destruct (String.eqb_spec name column) as [->|Hne].
  - apply String.eqb_refl.
  - apply String.eqb_neq. intros Heq. apply Hne.
    by apply (NoDup_fmap_inj Py.strip (DataFrame.columns d)).
Qed.

Lemma cells_strip_columns :
  DataFrame.cells (DataFrame.strip_columns d) (Py.strip column) =
  DataFrame.cells d column.
Proof.
  unfold DataFrame.cells, DataFrame.strip_columns. simpl. f_equal.
  pose proof eqb_strip as Heqb. unfold DataFrame.columns in Heqb.
  induction (cols d) as [|[n c] l IH]; [done|]. simpl.
  rewrite (Heqb n) by (by left). destruct (String.eqb n column); [done|].
  apply IH. intros name Hname. apply Heqb. by right.
Qed.

Lemma loc_setitem_strip_columns (s : Series) :
  DataFrame.loc_setitem (Py.strip column) s (DataFrame.strip_columns d) =
  DataFrame.strip_columns (DataFrame.loc_setitem column s d).
Proof.
  unfold DataFrame.loc_setitem, DataFrame.strip_columns. simpl. f_equal.
  rewrite <- !list_fmap_compose.
  pose proof eqb_strip as Heqb. unfold DataFrame.columns in Heqb.
  induction (cols d) as [|[n c] l IH]; [done|].
  rewrite !fmap_cons. f_equal.
  - simpl. rewrite (Heqb n) by (by left). by destruct (String.eqb n column).
  - apply IH. intros name Hname. apply Heqb. by right.
Qed.

Lemma dropna_strip_columns d' :
  DataFrame.dropna column d = Ok d' →
  DataFrame.dropna (Py.strip column) (DataFrame.strip_columns d) =
  Ok (DataFrame.strip_columns d').
Proof.
  intros [_ ->]%dropna_Ok.
  assert (Py.strip column ∈ DataFrame.columns (DataFrame.strip_columns d))
    as Hin'.
  { rewrite columns_strip_columns. by apply list_elem_of_fmap_2. }
  unfold DataFrame.dropna, mbind, result_bind.
  rewrite (getitem_cells _ _ Hin'), cells_strip_columns.
  unfold DataFrame.strip_columns. simpl. f_equal. f_equal.
  by rewrite <- !list_fmap_compose.
Qed.

End Trimmed.

Section Trimmed_pass.

Variable interpolate : string → list nat → Series → result Series.
Variable config : ConfigParser.
Variable names : list string.
Hypothesis Hnames : NoDup (Py.strip <$> names).

Lemma trimmed_df st t :
  trimmed_store st t → Store.df t = DataFrame.strip_columns (Store.df st).
Proof. intros [Hp Hr]. unfold Store.df. rewrite Hp, Hr. by destruct (rebound st). Qed.

Lemma named_df st : named names st → DataFrame.columns (Store.df st) = names.
Proof.
  intros [Hp Hr]. unfold Store.df.
  destruct (rebound st) as [d|]; [by apply Hr | done].
Qed.

(** One column over the two stores: both go through and the stores stay
    related, or both raise. *)
Lemma process_column_trimmed column st t :
  trimmed_store st t → named names st → column ∈ names →
  match process_column interpolate config column st,
        process_column interpolate config (Py.strip column) t with
  | (Ok _, st'), (Ok _, t') => trimmed_store st' t' ∧ named names st'
  | (Raise _, _), (Raise _, _) => True
  | _, _ => False
  end.
Proof.
  intros Htr Hnamed Hin.
  pose proof (trimmed_df _ _ Htr) as Hdf.
  pose proof (named_df _ Hnamed) as Hcols.
  rewrite !process_column_eq, strip_idempotent.
  destruct (existsb _ _); [|done].
  destruct (ConfigParser.get _ _ _) as [s|]; [|done].
  destruct (apply_strategy_cases interpolate column (Py.lower s) st)
    as [[Hr Ha]|[(Hr & Hs & _)|[Hno Ha]]].
  - destruct (apply_strategy_cases interpolate (Py.strip column) (Py.lower s) t)
      as [[_ Hb]|[(? & _)|[Hno _]]]; [|done|].
    2:{ exfalso. apply Hno. rewrite Hr. unfold strategies.
        rewrite !elem_of_cons. tauto. }
    rewrite Ha, Hb, Hdf.
    destruct (DataFrame.dropna column (Store.df st)) as [d'|] eqn:Hd.
    + rewrite (dropna_strip_columns (Store.df st) column
                 ltac:(by rewrite Hcols) ltac:(by rewrite Hcols) _ Hd).
      simpl. destruct Htr as [Hp _], Hnamed as [Hnp _].
      split; [by split|]. split; [done|]. intros d0 [= <-].
      by rewrite (columns_dropna _ _ _ Hd).
    + exfalso. unfold DataFrame.dropna, mbind, result_bind in Hd.
      rewrite getitem_cells in Hd by (by rewrite Hcols). done.
  - destruct (apply_strategy_uniform interpolate (Py.lower s) Hr Hs) as [g Hg].
    rewrite !Hg, !transform_column_eq, Hdf.
    rewrite (getitem_cells (Store.df st) column) by (by rewrite Hcols).
    rewrite (getitem_cells (DataFrame.strip_columns (Store.df st)) (Py.strip column))
      by (rewrite columns_strip_columns, Hcols; by apply list_elem_of_fmap_2).
    rewrite cells_strip_columns by (by rewrite Hcols).
    change (index (DataFrame.strip_columns (Store.df st)))
      with (index (Store.df st)).
    destruct (g _ _) as [series|]; [|done].
    unfold Store.update. destruct Htr as [Hp Hreb], Hnamed as [Hnp Hnr].
    rewrite Hreb. destruct (rebound st) as [d0|]; simpl.
    + split; split; simpl; [done| |done|].
      * f_equal. apply loc_setitem_strip_columns; by rewrite (Hnr d0).
      * intros d1 [= <-]. by rewrite columns_loc_setitem, (Hnr d0).
    + split; split; simpl; [|done| |done].
      * rewrite Hp. apply loc_setitem_strip_columns; by rewrite Hnp.
      * by rewrite columns_loc_setitem.
  - destruct (apply_strategy_cases interpolate (Py.strip column) (Py.lower s) t)
      as [[Hr _]|[(_ & Hs & _)|[_ Hb]]]; [| done |by rewrite Ha, Hb].
    exfalso. apply Hno. rewrite Hr. unfold strategies.
    rewrite !elem_of_cons. tauto.
Qed.

Lemma for_columns_trimmed columns st t :
  trimmed_store st t → named names st → columns ⊆ names →
  match for_columns (process_column interpolate config) columns st,
        for_columns (process_column interpolate config) (Py.strip <$> columns) t
  with
  | (Completed, st'), (Completed, t') => trimmed_store st' t'
  | (Raised _ _, st'), (Raised _ _, t') => trimmed_store st' t'
  | _, _ => False
  end.
Proof.
  revert st t. induction columns as [|column columns IH];
    intros st t Htr Hnamed Hsub; [done|].
  rewrite fmap_cons. simpl.
  pose proof (process_column_trimmed column st t Htr Hnamed
                ltac:(apply Hsub; by left)) as Hstep.
  destruct (process_column interpolate config column st) as [[u|e] st1] eqn:Hrun,
    (process_column interpolate config (Py.strip column) t) as [[u'|e'] t1] eqn:Hrun';
    try done.
  - destruct Hstep as [Htr1 Hnamed1]. apply IH; [done|done|].
    intros c Hc. apply Hsub. by right.
  - apply process_column_raise in Hrun as ->.
    by apply process_column_raise in Hrun' as ->.
Qed.

End Trimmed_pass.

(** X19. When trimming does not make two column names of the frame equal,
    trimming the names before the call, as the script does, changes nothing
    but the names: the pass over the trimmed frame returns the trimmed result
    of the pass over the frame as it is ([None] in both cases or in
    neither), and leaves the object of the caller in the same state up to
    the names. *)
Theorem trimming_names_first_changes_only_the_names
    interpolate df config records :
  NoDup (Py.strip <$> DataFrame.columns df) →
  (input_missing_data interpolate (DataFrame.strip_columns df) config records).1
  = DataFrame.strip_columns <$> (input_missing_data interpolate df config records).1 ∧
  passed (input_missing_data interpolate (DataFrame.strip_columns df) config records).2
  = DataFrame.strip_columns (passed (input_missing_data interpolate df config records).2).
Proof.
  intros Hnd. unfold input_missing_data.
  rewrite columns_strip_columns.
  pose proof (for_columns_trimmed interpolate config (DataFrame.columns df) Hnd
                (DataFrame.columns df) (Store.enter df records)
                (Store.enter (DataFrame.strip_columns df) records)
                ltac:(done) ltac:(done) ltac:(done)) as Hloop.
  destruct (for_columns _ (DataFrame.columns df) _) as [[|c e] st],
    (for_columns _ (Py.strip <$> DataFrame.columns df) _) as [[|c' e'] t];
    try done; simpl.
  - split; [|apply Hloop]. f_equal. by eapply trimmed_df.
  - split; [done | apply Hloop].
Qed.

Lemma trimming_names_first_changes_only_the_names_witness :
  (input_missing_data interpolate_no_scipy
     (DataFrame.strip_columns
        {| index := [0; 1];
           cols := [(" A ", [Num 1; NA]); ("B  ", [NA; Num 2])] |})
     (Scenario.config_two "A" "zero" "B" "bfill") []).1
  = DataFrame.strip_columns <$>
    (input_missing_data interpolate_no_scipy
       {| index := [0; 1];
          cols := [(" A ", [Num 1; NA]); ("B  ", [NA; Num 2])] |}
       (Scenario.config_two "A" "zero" "B" "bfill") []).1.
Proof.
  apply (trimming_names_first_changes_only_the_names interpolate_no_scipy
           {| index := [0; 1];
              cols := [(" A ", [Num 1; NA]); ("B  ", [NA; Num 2])] |}
           (Scenario.config_two "A" "zero" "B" "bfill") []).
  compute_done.
Defined.

(** ** A column without any value *)




